(** * The claudev postinstall downloader (scripts/postinstall.cpp)

    A shallow embedding of the installer: platform detection, the libcurl
    download, the libarchive extraction, the package.json version reader and
    [main], over an explicit model of the world the program runs in (file
    system, network, standard streams, trace of library calls). *)

From Stdlib Require Import ZArith Lia Bool List Ascii String.
From stdpp Require Import gmap strings pretty.
Import ListNotations.

Local Open Scope Z_scope.

(** ** Characters and strings the source spells with escapes *)

Definition dquote : ascii := "034"%char.
Definition colon : ascii := ":"%char.
Definition slash : ascii := "/"%char.
Definition nl : string := String "010"%char EmptyString.
Definition cr : string := String "013"%char EmptyString.

(** ** Configuration constants *)

Definition REPO : string := "openSVM/vibedev".
Definition BINARY_NAME : string := "claudev".
Definition DOWNLOAD_TIMEOUT : Z := 60.
Definition MAX_REDIRECTS : Z := 5.
Definition BUFFER_SIZE : Z := 8192.

(** ** Platform detection *)

(** The preprocessor symbols [Platform::detect] branches on, and [__FILE__].
    A field is [true] when the compiler defines the symbol (for the [#elif]
    tests on [__APPLE__] and [__linux__]: defines it non-zero). *)
Record Macros := {
  _WIN32 : bool;
  __APPLE__ : bool;
  __linux__ : bool;
  __x86_64__ : bool;
  _M_X64 : bool;
  __aarch64__ : bool;
  _M_ARM64 : bool;
  __FILE__ : string
}.

Module Platform.

Record t := {
  os : string;
  arch : string;
  target_triple : string;
  archive_ext : string
}.

(** Lines 48-59: the os name and the archive extension. In the [#else]
    branch [archive_ext] keeps the empty string of the default constructor. *)
Definition detect_os (m : Macros) : string * string :=
  if _WIN32 m then ("win32", "zip")
  else if __APPLE__ m then ("darwin", "tar.gz")
  else if __linux__ m then ("linux", "tar.gz")
  else ("unknown", "").

(** Lines 61-67. *)
Definition detect_arch (m : Macros) : string :=
  if __x86_64__ m || _M_X64 m then "x64"
  else if __aarch64__ m || _M_ARM64 m then "arm64"
  else "unknown".

(** Lines 69-78: the map to the Rust target triple; no final [else], so the
    triple stays empty. *)
Definition triple_of (o a : string) : string :=
  if String.eqb o "darwin" && String.eqb a "x64" then "x86_64-apple-darwin"
  else if String.eqb o "darwin" && String.eqb a "arm64" then "aarch64-apple-darwin"
  else if String.eqb o "linux" && String.eqb a "x64" then "x86_64-unknown-linux-gnu"
  else if String.eqb o "win32" && String.eqb a "x64" then "x86_64-pc-windows-msvc"
  else "".

Definition detect (m : Macros) : t :=
  let '(o, ext) := detect_os m in
  let a := detect_arch m in
  {| os := o; arch := a; target_triple := triple_of o a; archive_ext := ext |}.

(** [std::string::empty]. *)
Definition empty (s : string) : bool :=
  match s with EmptyString => true | String _ _ => false end.

Definition is_supported (p : t) : bool := negb (empty (target_triple p)).

Definition get_binary_name (p : t) : string :=
  BINARY_NAME +:+ (if String.eqb (os p) "win32" then ".exe" else "").

End Platform.

(** ** std::string, with [size_t] positions

    Positions are [size_t] values: 64-bit on every supported target, with
    [npos] the largest one; [+ 1] and [-] wrap around. *)

Definition npos : Z := 18446744073709551615.
Definition size_t (z : Z) : Z := z mod 18446744073709551616.
Definition size (s : string) : Z := Z.of_nat (String.length s).

Fixpoint drop_str (n : nat) (s : string) : string :=
  match n, s with
  | O, _ => s
  | S n', String _ s' => drop_str n' s'
  | S _, EmptyString => EmptyString
  end.

Fixpoint take_str (n : nat) (s : string) : string :=
  match n, s with
  | S n', String c s' => String c (take_str n' s')
  | _, _ => EmptyString
  end.

(** Offset of the first [c] in [s]. *)
Fixpoint index_char (c : ascii) (s : string) : option nat :=
  match s with
  | EmptyString => None
  | String d s' => if Ascii.eqb d c then Some O else S <$> index_char c s'
  end.

(** Offset of the first occurrence of [needle] in [s]. *)
Fixpoint index_str (needle s : string) : option nat :=
  if String.prefix needle s then Some O
  else match s with
       | EmptyString => None
       | String _ s' => S <$> index_str needle s'
       end.

(** [s.find(c, pos)]: [npos] when [pos] is past the end or no [c] follows. *)
Definition find_char (s : string) (c : ascii) (pos : Z) : Z :=
  if size s <=? pos then npos
  else match index_char c (drop_str (Z.to_nat pos) s) with
       | Some i => pos + Z.of_nat i
       | None => npos
       end.

(** [s.find(needle)]. *)
Definition find_str (s needle : string) : Z :=
  match index_str needle s with
  | Some i => Z.of_nat i
  | None => npos
  end.

(** [s.substr(pos, count)]: [None] stands for [std::out_of_range], thrown
    when [pos > size()]; the count is clamped to the rest of the string. *)
Definition substr (s : string) (pos count : Z) : option string :=
  if size s <? pos then None
  else Some (take_str (Z.to_nat (Z.min count (size s - pos)))
                      (drop_str (Z.to_nat pos) s)).

(** The lines [std::getline] hands out in turn: the text is cut at each
    newline, and a last line without a newline counts when it is not empty. *)
Fixpoint getlines (s : string) : list string :=
  match s with
  | EmptyString => []
  | String c s' =>
      if Ascii.eqb c "010" then EmptyString :: getlines s'
      else match getlines s' with
           | [] => [String c EmptyString]
           | l :: ls => String c l :: ls
           end
  end.

(** ** std::filesystem::path, POSIX flavour

    A path is the string it wraps; the separator is [/] and there is no
    root name. *)

Definition is_absolute (p : string) : bool :=
  match p with String c _ => Ascii.eqb c slash | EmptyString => false end.

Fixpoint ends_with_slash (p : string) : bool :=
  match p with
  | EmptyString => false
  | String c EmptyString => Ascii.eqb c slash
  | String _ p' => ends_with_slash p'
  end.

(** [has_filename]: the last element is not empty. *)
Definition has_filename (p : string) : bool :=
  negb (Platform.empty p) && negb (ends_with_slash p).

(** [operator/]: an absolute right operand replaces the left one; otherwise
    a separator is added after a file name and the operand is appended. *)
Definition path_append (lhs p : string) : string :=
  if is_absolute p then p
  else if has_filename lhs then lhs +:+ "/" +:+ p
  else lhs +:+ p.

(** The components between separators, empty ones included. *)
Fixpoint split_path (p : string) : list string :=
  match p with
  | EmptyString => [EmptyString]
  | String c p' =>
      if Ascii.eqb c slash then EmptyString :: split_path p'
      else match split_path p' with
           | [] => [String c EmptyString]
           | x :: xs => String c x :: xs
           end
  end.

Fixpoint join_path (cs : list string) : string :=
  match cs with
  | [] => EmptyString
  | [c] => c
  | c :: cs' => c +:+ "/" +:+ join_path cs'
  end.

Fixpoint strip_trailing_empty (rev_cs : list string) : list string :=
  match rev_cs with
  | EmptyString :: cs => strip_trailing_empty cs
  | _ => rev_cs
  end.

(** [parent_path]: the path itself when it has no relative part (empty, or
    separators only); otherwise the path without its last element and the
    separators before it, the root directory kept. *)
Definition parent_path (p : string) : string :=
  let cs := split_path p in
  if forallb Platform.empty cs then p
  else
    let front := rev (strip_trailing_empty (tl (rev cs))) in
    match front with
    | [] => if is_absolute p then "/" else EmptyString
    | _ => join_path front
    end.

(** ** The world the installer runs in

    The operating system and the two libraries are outside the repository;
    what follows is the model of them the program is run against. *)

(** A location of the file system: the components of a path once [.], [..]
    and repeated separators are resolved, ["/"] first for an absolute path,
    the [..] that climb above the working directory first for a relative
    one. Links are not modelled, so resolution is lexical. *)
Definition push_component (stack : list string) (c : string) : list string :=
  if String.eqb c EmptyString || String.eqb c "." then stack
  else if String.eqb c ".." then
    match stack with
    | [] => [".."]
    | top :: rest =>
        if String.eqb top "/" then stack
        else if String.eqb top ".." then ".." :: stack
        else rest
    end
  else c :: stack.

Definition resolve (p : string) : list string :=
  rev (fold_left push_component (split_path p)
                 (if is_absolute p then ["/"] else [])).

Inductive node :=
  | Dir
  | File (mode : Z) (content : list Byte.byte).

(** The root, the working directory and the directories above it exist. *)
Definition is_anchor (loc : list string) : bool :=
  forallb (fun c => String.eqb c "/" || String.eqb c "..") loc.

Definition lookup_node (f : gmap (list string) node) (loc : list string)
  : option node :=
  if is_anchor loc then Some Dir else f !! loc.

(** The directories a location lies in, outermost first. *)
Definition ancestors (loc : list string) : list (list string) :=
  map (fun n => take n loc) (seq 0 (List.length loc)).

(** [inside d l]: location [l] is [d] or lies below it. *)
Fixpoint inside (d l : list string) : bool :=
  match d, l with
  | [], [] => true
  | [], c :: _ => negb (String.eqb c "..") && negb (String.eqb c "/")
  | x :: d', y :: l' => String.eqb x y && inside d' l'
  | _ :: _, [] => false
  end.

(** libcurl: the options [download_file] sets, and what a transfer yields:
    the [CURLcode], the chunks handed to the write callback, and the status
    of the last response. *)
Record curl_request := {
  CURLOPT_URL : string;
  CURLOPT_FOLLOWLOCATION : Z;
  CURLOPT_MAXREDIRS : Z;
  CURLOPT_TIMEOUT : Z;
  CURLOPT_USERAGENT : string;
  CURLOPT_SSL_VERIFYPEER : Z
}.

Record curl_response := {
  res : Z;
  chunks : list (list Byte.byte);
  response_code : Z
}.

Definition CURLE_OK : Z := 0.

(** libarchive: return codes and extraction flags of archive.h. *)
Definition ARCHIVE_EOF : Z := 1.
Definition ARCHIVE_OK : Z := 0.
Definition ARCHIVE_RETRY : Z := -10.
Definition ARCHIVE_WARN : Z := -20.
Definition ARCHIVE_FAILED : Z := -25.
Definition ARCHIVE_FATAL : Z := -30.

Definition ARCHIVE_EXTRACT_PERM : Z := 0x0002.
Definition ARCHIVE_EXTRACT_TIME : Z := 0x0004.
Definition ARCHIVE_EXTRACT_ACL : Z := 0x0020.
Definition ARCHIVE_EXTRACT_FFLAGS : Z := 0x0040.
Definition ARCHIVE_EXTRACT_SECURE_NODOTDOT : Z := 0x0200.

Definition has_flag (flags f : Z) : bool := negb (Z.land flags f =? 0).

(** What a call of the reader returns when it has nothing further to hand
    out ([archive_read_data_block] at the end of an entry's blocks,
    [archive_read_next_header] after the last entry): the end, or one of
    the error codes. *)
Inductive read_status :=
  | READ_EOF | READ_RETRY | READ_WARN | READ_FAILED | READ_FATAL.

Definition read_code (s : read_status) : Z :=
  match s with
  | READ_EOF => ARCHIVE_EOF
  | READ_RETRY => ARCHIVE_RETRY
  | READ_WARN => ARCHIVE_WARN
  | READ_FAILED => ARCHIVE_FAILED
  | READ_FATAL => ARCHIVE_FATAL
  end.

Record data_block := { buff : list Byte.byte; offset : Z }.

(** An entry as the reader yields it: the stored path, the permission bits,
    the blocks [archive_read_data_block] returns with [ARCHIVE_OK], and what
    it returns after them. Entries are regular files: the directory, link
    and special entries a reader can also yield are outside this model. *)
Record archive_entry := {
  pathname : string;
  perm : Z;
  blocks : list data_block;
  read_end : read_status
}.

(** A byte buffer as the reader sees it: the result of
    [archive_read_open_memory]; the entries for which
    [archive_read_next_header] returns [ARCHIVE_OK], in order; what it
    returns after the last of them, [headers_end]: [ARCHIVE_EOF] at the end
    of a whole archive, an error code when the next header cannot be read
    (an archive cut short or damaged); and [error_string], what
    [archive_error_string] says of the reader once one of its calls has
    failed. As long as no call of the reader has failed the C function
    returns a null pointer; line 240 streams it in that state after a block
    write has failed, and what [std::cerr] does with it is outside this
    model, which appends [error_string] there too. *)
Record archive := {
  open_result : Z;
  entries : list archive_entry;
  headers_end : read_status;
  error_string : string
}.

(** The calls that reach outside the process. *)
Inductive event :=
  | EvCurlGlobalInit
  | EvCurlGlobalCleanup
  | EvCurlPerform (req : curl_request)
  | EvExists (p : string)
  | EvOpenRead (p : string)
  | EvCreateDirectories (p : string)
  | EvReadOpenMemory (size : nat)
  | EvWriteHeader (p : string)
  | EvWriteDataBlock (p : string) (off : Z) (size : nat)
  | EvWriteFinishEntry (p : string)
  | EvChmod (p : string) (mode : Z).

(** What the program does not decide: whether the library handles can be
    made, the remote end and the network, how libarchive reads a buffer, the
    message tables, the file mode creation mask of the process, and the
    faults of the disk (no space, no permission), one answer per directory
    to make and per call. *)
Record Env := {
  curl_easy_init_ok : bool;
  curl_easy_perform : curl_request -> curl_response;
  curl_easy_strerror : Z -> string;
  archive_new_ok : bool;
  archive_read : list Byte.byte -> archive;
  write_error_string : event -> string;
  ec_message : Z -> string;
  mkdir_denied : list string -> bool;
  umask : Z;
  fault : event -> bool
}.

Record World := {
  fs : gmap (list string) node;
  stdout : string;
  stderr : string;
  trace : list event
}.

(** ** The state monad of the program *)

Definition M (A : Type) : Type := World -> A * World.

Definition ret {A} (a : A) : M A := fun w => (a, w).

Definition bind {A B} (c : M A) (k : A -> M B) : M B :=
  fun w => let (a, w') := c w in k a w'.

Declare Scope prog_scope.
Delimit Scope prog_scope with prog.
Notation "x <- c ;; k" := (bind c (fun x => k))
  (at level 100, c at next level, k at level 200, right associativity)
  : prog_scope.
Notation "c ;; k" := (bind c (fun _ => k))
  (at level 100, k at level 200, right associativity) : prog_scope.

Definition cout (s : string) : M unit := fun w =>
  (tt, {| fs := fs w; stdout := stdout w +:+ s; stderr := stderr w;
          trace := trace w |}).

Definition cerr (s : string) : M unit := fun w =>
  (tt, {| fs := fs w; stdout := stdout w; stderr := stderr w +:+ s;
          trace := trace w |}).

Definition emit (e : event) : M unit := fun w =>
  (tt, {| fs := fs w; stdout := stdout w; stderr := stderr w;
          trace := trace w ++ [e] |}).

Definition get_fs : M (gmap (list string) node) := fun w => (fs w, w).

Definition put_fs (f : gmap (list string) node) : M unit := fun w =>
  (tt, {| fs := f; stdout := stdout w; stderr := stderr w;
          trace := trace w |}).

Local Open Scope prog_scope.

(** ** The operating system and library calls *)

Section Calls.

Variable env : Env.

(** [fs::exists(p)], when it returns: whether the path names something.
    Line 313 calls the overload without [std::error_code], which throws
    [filesystem_error] when the status of the path cannot be read (a
    directory on the way that may not be searched); nothing in [main]
    catches it, so the process ends there in [std::terminate]. That
    outcome is not a value of this function: [run_main] below adds it to
    the runs of [main]. *)
Definition fs_exists (p : string) : M bool :=
  emit (EvExists p);;
  f <- get_fs;;
  ret (bool_decide (is_Some (lookup_node f (resolve p)))).

Definition ENOTDIR : Z := 20.
Definition EACCES : Z := 13.

(** Creating the listed directories in turn: one that is there is kept, a
    regular file in the way or a fault of the disk stops with an error. *)
Fixpoint mkdirs (locs : list (list string)) (f : gmap (list string) node)
  : Z * gmap (list string) node :=
  match locs with
  | [] => (0, f)
  | a :: rest =>
      match lookup_node f a with
      | Some Dir => mkdirs rest f
      | Some (File _ _) => (ENOTDIR, f)
      | None =>
          if mkdir_denied env a then (EACCES, f)
          else mkdirs rest (<[a := Dir]> f)
      end
  end.

(** [fs::create_directories(p, ec)]: the value of [ec], 0 for success. *)
Definition create_directories (p : string) : M Z :=
  emit (EvCreateDirectories p);;
  f <- get_fs;;
  let '(ec, f') := mkdirs (ancestors (resolve p) ++ [resolve p]) f in
  put_fs f';;
  ret ec.

(** [chmod]: 0 on success, -1 otherwise. *)
Definition chmod (p : string) (mode : Z) : M Z :=
  emit (EvChmod p mode);;
  f <- get_fs;;
  if fault env (EvChmod p mode) then ret (-1)
  else match lookup_node f (resolve p) with
       | Some (File _ content) =>
           put_fs (<[resolve p := File mode content]> f);; ret 0
       | Some Dir => ret 0
       | None => ret (-1)
       end.

(** Opening a file for reading, as [std::ifstream] does: the content when
    the path names a regular file that can be read. *)
Definition ifstream_open (p : string) : M (option (list Byte.byte)) :=
  emit (EvOpenRead p);;
  f <- get_fs;;
  if fault env (EvOpenRead p) then ret None
  else match lookup_node f (resolve p) with
       | Some (File _ content) => ret (Some content)
       | _ => ret None
       end.

(** *** archive_write_disk *)

(** The mode a regular file is created with (libarchive's
    [create_filesystem_object]): the permission bits of the entry below
    01000, less the bits of the file mode creation mask. *)
Definition creation_mode (e : archive_entry) : Z :=
  Z.land (Z.land (perm e) 511) (Z.lnot (umask env)).

Definition has_dotdot (p : string) : bool :=
  existsb (String.eqb "..") (split_path p).

Definition is_file (o : option node) : bool :=
  match o with Some (File _ _) => true | _ => false end.

Definition add_dir (f : gmap (list string) node) (a : list string)
  : gmap (list string) node :=
  match lookup_node f a with
  | None => <[a := Dir]> f
  | Some _ => f
  end.

(** [archive_write_header] for the entry [e] once its pathname is set to
    [p]: with [ARCHIVE_EXTRACT_SECURE_NODOTDOT] a path with a [..] element
    is refused; a regular file among the directories of the path, a
    directory at the path, or a fault of the disk fail the call; otherwise
    the missing directories are made and an empty file, created with
    [creation_mode], replaces what was there. *)
Definition archive_write_header (flags : Z) (p : string) (e : archive_entry)
  : M Z :=
  emit (EvWriteHeader p);;
  f <- get_fs;;
  let loc := resolve p in
  if has_flag flags ARCHIVE_EXTRACT_SECURE_NODOTDOT && has_dotdot p
  then ret ARCHIVE_FAILED
  else if fault env (EvWriteHeader p) then ret ARCHIVE_FAILED
  else if existsb (fun a => is_file (lookup_node f a)) (ancestors loc)
  then ret ARCHIVE_FAILED
  else match lookup_node f loc with
       | Some Dir => ret ARCHIVE_FAILED
       | _ =>
           put_fs (<[loc := File (creation_mode e) []]>
                     (fold_left add_dir (ancestors loc) f));;
           ret ARCHIVE_OK
       end.

(** Writing [b] at offset [off] of a file, a gap filled with zero bytes. *)
Definition write_at (content : list Byte.byte) (off : nat)
  (b : list Byte.byte) : list Byte.byte :=
  take off (content ++ replicate (off - List.length content)%nat Byte.x00)
  ++ b ++ drop (off + List.length b)%nat content.

(** [archive_write_data_block] on the entry being written. *)
Definition archive_write_data_block (p : string) (b : data_block) : M Z :=
  let ev := EvWriteDataBlock p (offset b) (List.length (buff b)) in
  emit ev;;
  f <- get_fs;;
  if fault env ev then ret ARCHIVE_FAILED
  else match lookup_node f (resolve p) with
       | Some (File mode content) =>
           put_fs (<[resolve p :=
                       File mode (write_at content (Z.to_nat (offset b))
                                           (buff b))]> f);;
           ret ARCHIVE_OK
       | _ => ret ARCHIVE_FAILED
       end.

(** [archive_write_finish_entry]: with [ARCHIVE_EXTRACT_PERM] the stored
    permission bits are set on the file. *)
Definition archive_write_finish_entry (flags : Z) (p : string) (e : archive_entry)
  : M Z :=
  emit (EvWriteFinishEntry p);;
  f <- get_fs;;
  if fault env (EvWriteFinishEntry p) then ret ARCHIVE_FAILED
  else match lookup_node f (resolve p) with
       | Some (File mode content) =>
           put_fs (<[resolve p :=
                       File (if has_flag flags ARCHIVE_EXTRACT_PERM
                             then perm e else mode)
                            content]> f);;
           ret ARCHIVE_OK
       | _ => ret ARCHIVE_FAILED
       end.

End Calls.

(** ** The program *)

Section Program.

Variable m : Macros.
Variable env : Env.

(** *** Download *)

Record DownloadBuffer := {
  data : list Byte.byte;
  last_reported_mb : Z
}.

(** [DownloadBuffer::write_callback]: the chunk is appended, progress is
    printed once per megabyte, and the size of the chunk is returned. *)
Definition write_callback (contents : list Byte.byte) (buffer : DownloadBuffer)
  : M (Z * DownloadBuffer) :=
  let total_size := Z.of_nat (List.length contents) in
  let data' := data buffer ++ contents in
  let current_mb := Z.of_nat (List.length data') / (1024 * 1024) in
  if last_reported_mb buffer <? current_mb then
    cout (cr +:+ "  Downloaded " +:+ pretty current_mb +:+ " MB");;
    ret (total_size, {| data := data'; last_reported_mb := current_mb |})
  else
    ret (total_size,
         {| data := data'; last_reported_mb := last_reported_mb buffer |}).

(** The transfer as [curl_easy_perform] drives it: one callback per chunk.
    The callback always returns the chunk size, so libcurl never stops. *)
Fixpoint receive (cs : list (list Byte.byte)) (buffer : DownloadBuffer)
  : M DownloadBuffer :=
  match cs with
  | [] => ret buffer
  | c :: cs' =>
      r <- write_callback c buffer;;
      receive cs' (snd r)
  end.

Definition request (url : string) : curl_request :=
  {| CURLOPT_URL := url;
     CURLOPT_FOLLOWLOCATION := 1;
     CURLOPT_MAXREDIRS := MAX_REDIRECTS;
     CURLOPT_TIMEOUT := DOWNLOAD_TIMEOUT;
     CURLOPT_USERAGENT := "claudev-installer/cpp";
     CURLOPT_SSL_VERIFYPEER := 1 |}.

(** [download_file]: [None] is [std::nullopt]. A [CurlHandle] that cannot
    be initialised throws, and the exception is caught at the end. *)
Definition download_file (url : string) : M (option (list Byte.byte)) :=
  if negb (curl_easy_init_ok env) then
    cerr (nl +:+ "Download exception: " +:+ "Failed to initialize CURL" +:+ nl);;
    ret None
  else
    emit (EvCurlPerform (request url));;
    let r := curl_easy_perform env (request url) in
    buffer <- receive (chunks r) {| data := []; last_reported_mb := 0 |};;
    if negb (res r =? CURLE_OK) then
      cerr (nl +:+ "Download failed: " +:+ curl_easy_strerror env (res r) +:+ nl);;
      ret None
    else if negb (response_code r =? 200) then
      cerr (nl +:+ "HTTP " +:+ pretty (response_code r) +:+ nl);;
      ret None
    else
      cout (" - done" +:+ nl);;
      ret (Some (data buffer)).

(** *** Extraction *)

Definition extract_flags : Z :=
  Z.lor (Z.lor (Z.lor ARCHIVE_EXTRACT_TIME ARCHIVE_EXTRACT_PERM)
               ARCHIVE_EXTRACT_ACL) ARCHIVE_EXTRACT_FFLAGS.

(** The inner loop (lines 231-237): the blocks of the entry are written in
    turn. The result is [success] and the value of [r] when the loop is
    left: [ARCHIVE_OK] when a write failed and the loop was broken, what the
    reader returned otherwise. *)
Fixpoint copy_data (full_path : string) (bs : list data_block)
  (e : archive_entry) : M (bool * Z) :=
  match bs with
  | [] => ret (true, read_code (read_end e))
  | b :: bs' =>
      wr <- archive_write_data_block env full_path b;;
      if negb (wr =? ARCHIVE_OK) then
        cerr ("Write data failed: "
                +:+ write_error_string env
                      (EvWriteDataBlock full_path (offset b) (List.length (buff b)))
                +:+ nl);;
        ret (false, ARCHIVE_OK)
      else copy_data full_path bs' e
  end.

(** The loop over the entries (lines 212-251); the result is [success].
    [es] are the entries [archive_read_next_header] still has to hand out
    with [ARCHIVE_OK]. When there is none the call returns something else,
    [ARCHIVE_EOF] or an error code, and the [while] ends either way with
    [success] as it is: the code does not look at that value.
    [read_error] is [archive_error_string(a)]. *)
Fixpoint extract_entries (read_error dest_dir : string)
  (es : list archive_entry) : M bool :=
  match es with
  | [] => ret true
  | e :: es' =>
      let current_file := pathname e in
      let full_path := path_append dest_dir current_file in
      r <- archive_write_header env extract_flags full_path e;;
      if negb (r =? ARCHIVE_OK) then
        cerr ("Write header failed: "
                +:+ write_error_string env (EvWriteHeader full_path) +:+ nl);;
        ret false
      else
        c <- copy_data full_path (blocks e) e;;
        if negb (snd c =? ARCHIVE_EOF) then
          cerr ("Read data failed: " +:+ read_error +:+ nl);;
          ret false
        else
          r <- archive_write_finish_entry env extract_flags full_path e;;
          if negb (r =? ARCHIVE_OK) then
            cerr ("Finish entry failed: "
                    +:+ write_error_string env (EvWriteFinishEntry full_path)
                    +:+ nl);;
            ret false
          else extract_entries read_error dest_dir es'
  end.

(** [extract_archive]. The four calls that end it (lines 253-256) close
    and free the two handles. They make no entry and read no block; after a
    [break] that left an entry open, [archive_write_close] still finishes
    that entry, which can change the mode and the size of its file, at the
    place the entry was being written to. That last step is not modelled:
    after a failure the properties below say nothing of the file of the
    entry that failed. *)
Definition extract_archive (bytes : list Byte.byte) (dest_dir : string)
  : M bool :=
  if negb (archive_new_ok env) then
    cerr ("Failed to create archive handles" +:+ nl);;
    ret false
  else
    emit (EvReadOpenMemory (List.length bytes));;
    let a := archive_read env bytes in
    if negb (open_result a =? ARCHIVE_OK) then
      cerr ("Failed to open archive: " +:+ error_string a +:+ nl);;
      ret false
    else extract_entries (error_string a) dest_dir (entries a).

(** Mode 0755: [S_IRWXU | S_IRGRP | S_IXGRP | S_IROTH | S_IXOTH]. *)
Definition exec_mode : Z :=
  Z.lor (Z.lor (Z.lor (Z.lor 448 32) 8) 4) 1.

Definition make_executable (file_path : string) : M bool :=
  if negb (_WIN32 m) then
    r <- chmod env file_path exec_mode;;
    ret (r =? 0)
  else ret true.

(** *** The package version *)

Definition version_key : string :=
  String dquote ("version" +:+ String dquote EmptyString).

(** Lines 282-284 on a line that holds the key. The [substr] cannot throw
    there, see [substr_in_range] below. *)
Definition version_of_line (line : string) : option string :=
  let start := size_t (find_char line dquote (find_char line colon 0) + 1) in
  let end_ := find_char line dquote start in
  substr line start (size_t (end_ - start)).

Fixpoint scan_lines (lines : list string) : string :=
  match lines with
  | [] => "0.5.0"
  | line :: rest =>
      if negb (find_str line version_key =? npos) then
        default EmptyString (version_of_line line)
      else scan_lines rest
  end.

Definition package_json : string :=
  path_append (parent_path (parent_path (__FILE__ m))) "package.json".

Definition get_package_version : M string :=
  file <- ifstream_open env package_json;;
  match file with
  | None => ret "0.5.0"
  | Some content => ret (scan_lines (getlines (string_of_list_byte content)))
  end.

(** *** main *)

Definition script_dir : string := parent_path (__FILE__ m).
Definition bin_dir : string := path_append (parent_path script_dir) "bin".
Definition binary_path : string :=
  path_append bin_dir (Platform.get_binary_name (Platform.detect m)).

Definition build_url (version : string) (platform : Platform.t) : string :=
  "https://github.com/" +:+ REPO +:+ "/releases/download/v" +:+ version
    +:+ "/" +:+ BINARY_NAME +:+ "-" +:+ Platform.target_triple platform
    +:+ "." +:+ Platform.archive_ext platform.

Definition main : M Z :=
  cout ("claudev: Installing binary..." +:+ nl);;
  emit EvCurlGlobalInit;;
  let platform := Platform.detect m in
  if negb (Platform.is_supported platform) then
    cerr ("Unsupported platform: " +:+ Platform.os platform +:+ "-"
            +:+ Platform.arch platform +:+ nl);;
    cerr ("Build from source: cargo install claudev" +:+ nl);;
    emit EvCurlGlobalCleanup;;
    ret 0
  else
    present <- fs_exists binary_path;;
    if present then
      cout ("claudev: Binary exists, skipping download" +:+ nl);;
      emit EvCurlGlobalCleanup;;
      ret 0
    else
      version <- get_package_version;;
      let url := build_url version platform in
      cout ("claudev: Downloading for " +:+ Platform.os platform +:+ "-"
              +:+ Platform.arch platform +:+ nl);;
      download_result <- download_file url;;
      match download_result with
      | None =>
          cerr ("claudev: Download failed" +:+ nl);;
          cerr ("claudev: Install manually: cargo install claudev" +:+ nl);;
          emit EvCurlGlobalCleanup;;
          ret 0
      | Some bytes =>
          ec <- create_directories env bin_dir;;
          if negb (ec =? 0) then
            cerr ("Failed to create bin directory: " +:+ ec_message env ec +:+ nl);;
            emit EvCurlGlobalCleanup;;
            ret 1
          else
            ok <- extract_archive bytes bin_dir;;
            if negb ok then
              cerr ("claudev: Extraction failed" +:+ nl);;
              emit EvCurlGlobalCleanup;;
              ret 1
            else
              (if negb (String.eqb (Platform.os platform) "win32") then
                 ok <- make_executable binary_path;;
                 if negb ok then
                   cerr ("Warning: Failed to set executable permissions" +:+ nl)
                 else ret tt
               else ret tt);;
              cout ("claudev: Installed successfully!" +:+ nl);;
              emit EvCurlGlobalCleanup;;
              ret 0
      end.

End Program.

(** ** The release table of the specification

    The four supported rows, written after section 4.1 with the names the
    code gives the systems ([darwin] for macos, [win32] for windows). *)
Definition release_table : list (string * string * (string * string)) :=
  [ ("darwin", "x64", ("x86_64-apple-darwin", "tar.gz"));
    ("darwin", "arm64", ("aarch64-apple-darwin", "tar.gz"));
    ("linux", "x64", ("x86_64-unknown-linux-gnu", "tar.gz"));
    ("win32", "x64", ("x86_64-pc-windows-msvc", "zip")) ].

Definition release_row (o a : string) : option (string * string) :=
  snd <$> find (fun row => String.eqb (fst (fst row)) o
                           && String.eqb (snd (fst row)) a) release_table.

(** ** Vocabulary of the properties *)

(** [contains n s]: [n] occurs in [s]. *)
Definition contains (n s : string) : Prop := exists a b, s = a +:+ n +:+ b.

(** A line that fits in memory: its size is a [size_t] below [npos]. *)
Definition fits (s : string) : Prop := size s < npos.

(** The calls a run has added to the trace. *)
Definition new_events (w w' : World) : list event :=
  drop (List.length (trace w)) (trace w').

Definition is_network (e : event) : bool :=
  match e with EvCurlPerform _ => true | _ => false end.

Definition not_network (e : event) : bool := negb (is_network e).

Definition is_fs_write (e : event) : bool :=
  match e with
  | EvCreateDirectories _ | EvWriteHeader _ | EvWriteDataBlock _ _ _
  | EvWriteFinishEntry _ | EvChmod _ _ => true
  | _ => false
  end.

Definition is_extraction (e : event) : bool :=
  match e with
  | EvReadOpenMemory _ | EvWriteHeader _ | EvWriteDataBlock _ _ _
  | EvWriteFinishEntry _ => true
  | _ => false
  end.

(** The URLs of the transfers in a trace. *)
Definition requested_urls (evs : list event) : list string :=
  omap (fun e => match e with
                 | EvCurlPerform req => Some (CURLOPT_URL req)
                 | _ => None
                 end) evs.

(** [extends P w w']: the run from [w] to [w'] added calls that all satisfy
    [P] to the trace. *)
Definition extends (P : event -> bool) (w w' : World) : Prop :=
  exists evs, trace w' = trace w ++ evs /\ Forall (fun e => P e = true) evs.

(** [touches loc f f']: from [f] to [f'] the nodes at other places than
    [loc] are kept as they are, a regular file stays one, and a regular file
    of [f'] is at [loc] or is a file of [f], unchanged. *)
Definition touches (loc : list string) (f f' : gmap (list string) node) : Prop :=
  forall l,
    (l <> loc -> forall n, lookup_node f l = Some n -> lookup_node f' l = Some n)
    /\ (is_file (lookup_node f l) = true -> is_file (lookup_node f' l) = true)
    /\ (is_file (lookup_node f' l) = true ->
        l = loc \/ lookup_node f' l = lookup_node f l).

(** Where an entry lands, and what its blocks make of an empty file. *)
Definition entry_loc (dest : string) (e : archive_entry) : list string :=
  resolve (path_append dest (pathname e)).

Definition write_blocks (bs : list data_block) (content : list Byte.byte)
  : list Byte.byte :=
  fold_left (fun c b => write_at c (Z.to_nat (offset b)) (buff b)) bs content.

Definition entry_content (e : archive_entry) : list Byte.byte :=
  write_blocks (blocks e) [].

(** An entry fails in world [w]: its header cannot be written, the disk
    refuses one of its blocks, the reader ends its data with an error, or
    the entry cannot be finished. *)
Definition entry_fails (env : Env) (dest : string) (e : archive_entry)
  (w : World) : Prop :=
  let p := path_append dest (pathname e) in
  fst (archive_write_header env extract_flags p e w) <> ARCHIVE_OK
  \/ (exists b, In b (blocks e)
        /\ fault env (EvWriteDataBlock p (offset b) (List.length (buff b))) = true)
  \/ read_end e <> READ_EOF
  \/ fault env (EvWriteFinishEntry p) = true.

(** The entries go through in turn: none of them fails in the world the
    entries before it have left. *)
Fixpoint goes_through (env : Env) (re dest : string)
  (es : list archive_entry) (w : World) : Prop :=
  match es with
  | [] => True
  | e :: es' =>
      ~ entry_fails env dest e w
      /\ goes_through env re dest es'
                      (snd (extract_entries env re dest [e] w))
  end.

(** A text whose lines are [ls], each of them ended by a newline, and a
    piece of text without a newline. *)
Fixpoint unlines (ls : list string) : string :=
  match ls with
  | [] => EmptyString
  | l :: ls' => l +:+ nl +:+ unlines ls'
  end.

Definition no_newline (s : string) : Prop :=
  index_char "010"%char s = None.

(** A stored path that cannot leave the directory it is joined to: it is
    relative and none of its elements is [..]. *)
Definition safe_path (p : string) : bool :=
  negb (is_absolute p) && negb (has_dotdot p).

(** [confined d f f']: every regular file of [f'] that is new or changed
    with respect to [f] lies inside [d]. *)
Definition confined (d : list string) (f f' : gmap (list string) node) : Prop :=
  forall l,
    is_file (lookup_node f' l) = true ->
    lookup_node f' l = lookup_node f l \/ inside d l = true.

(** Case analysis on the string comparisons of a goal. *)
Ltac case_string_eqb :=
  repeat match goal with
         | |- context [String.eqb ?x ?y] =>
             destruct (String.eqb_spec x y); try congruence; subst;
             cbn [andb orb negb]
         end.

(** ** Sample worlds *)

Definition linux_x64 : Macros :=
  {| _WIN32 := false; __APPLE__ := false; __linux__ := true;
     __x86_64__ := true; _M_X64 := false; __aarch64__ := false;
     _M_ARM64 := false; __FILE__ := "/pkg/scripts/postinstall.cpp" |}.

Definition entry_claudev : archive_entry :=
  {| pathname := "claudev"; perm := 493;
     blocks := [ {| buff := list_byte_of_string "ELF"; offset := 0 |};
                 {| buff := list_byte_of_string "code"; offset := 3 |} ];
     read_end := READ_EOF |}.



(** An entry whose stored path climbs out of the directory it is joined to. *)
Definition entry_escape : archive_entry :=
  {| pathname := "../../escape"; perm := 420;
     blocks := [ {| buff := list_byte_of_string "pwn"; offset := 0 |} ];
     read_end := READ_EOF |}.

Definition sample_env (status : Z) (es : list archive_entry) : Env :=
  {| curl_easy_init_ok := true;
     curl_easy_perform := fun _ =>
       {| res := CURLE_OK;
          chunks := [list_byte_of_string "archive "; list_byte_of_string "bytes"];
          response_code := status |};
     curl_easy_strerror := fun _ => "Unknown error";
     archive_new_ok := true;
     archive_read := fun _ =>
       {| open_result := ARCHIVE_OK; entries := es;
          headers_end := READ_EOF;
          error_string := "Truncated input" |};
     write_error_string := fun _ => "Write failed";
     ec_message := fun _ => "Not a directory";
     mkdir_denied := fun _ => false;
     umask := 18;
     fault := fun _ => false |}.

Definition env_ok : Env := sample_env 200 [entry_claudev].
Definition env_404 : Env := sample_env 404 [entry_claudev].
Definition env_204 : Env := sample_env 204 [entry_claudev].
Definition env_206 : Env := sample_env 206 [entry_claudev].
Definition env_escape : Env := sample_env 200 [entry_escape].

Definition world_of (f : gmap (list string) node) : World :=
  {| fs := f; stdout := EmptyString; stderr := EmptyString; trace := [] |}.

(** The package as npm unpacks it, before the first run. *)
Definition version_line : string :=
  "  " +:+ version_key +:+ ": " +:+ String dquote ("1.2.3" +:+ String dquote ",").

Definition package_json_text : string :=
  "{" +:+ nl +:+ version_line +:+ nl +:+ "}" +:+ nl.

Definition fs_fresh : gmap (list string) node :=
  <[ ["/"; "pkg"; "package.json"] := File 420 (list_byte_of_string package_json_text) ]>
  (<[ ["/"; "pkg"; "scripts"] := Dir ]>
   (<[ ["/"; "pkg"] := Dir ]> ∅)).

Definition world_fresh : World := world_of fs_fresh.


(** A regular file where the bin directory should be. *)
Definition world_blocked : World :=
  world_of (<[ ["/"; "pkg"; "bin"] := File 420 [] ]> fs_fresh).

(** The bin directory made, nothing in it yet. *)
Definition world_bin : World :=
  world_of (<[ ["/"; "pkg"; "bin"] := Dir ]> fs_fresh).

(** A [package.json] written on one line. *)
Definition quoted (s : string) : string :=
  String dquote (s +:+ String dquote EmptyString).

Definition one_line (name version : string) : string :=
  "{" +:+ quoted "name" +:+ ": " +:+ quoted name +:+ ", "
      +:+ quoted "version" +:+ ": " +:+ quoted version +:+ "}".

Definition one_line_json : string := one_line "claudev" "1.2.3".

(** The fresh package with its [package.json] written that way. *)
Definition world_one_line : World :=
  world_of (<[ ["/"; "pkg"; "package.json"]
               := File 420 (list_byte_of_string (one_line_json +:+ nl)) ]>
            fs_fresh).

(** An archive cut short after its first entry: the binary is read whole,
    then [archive_read_next_header] fails. *)
Definition env_truncated : Env :=
  {| curl_easy_init_ok := true;
     curl_easy_perform := curl_easy_perform env_ok;
     curl_easy_strerror := curl_easy_strerror env_ok;
     archive_new_ok := true;
     archive_read := fun _ =>
       {| open_result := ARCHIVE_OK; entries := [entry_claudev];
          headers_end := READ_FATAL;
          error_string := "Truncated input" |};
     write_error_string := write_error_string env_ok;
     ec_message := ec_message env_ok;
     mkdir_denied := fun _ => false;
     umask := 18;
     fault := fun _ => false |}.

(** ** Further vocabulary *)

(** The progress counter agrees with the buffer: it is the number of whole
    megabytes received. *)
Definition progress_ok (b : DownloadBuffer) : Prop :=
  last_reported_mb b = Z.of_nat (List.length (data b)) / (1024 * 1024).

(** The buffer [download_file] starts from. *)
Definition empty_buffer : DownloadBuffer :=
  {| data := []; last_reported_mb := 0 |}.

(** [main] from line 339 on: what it does with the bytes of a download that
    succeeded. *)
Definition install (m : Macros) (env : Env) (bytes : list Byte.byte) : M Z :=
  let platform := Platform.detect m in
  ec <- create_directories env (bin_dir m);;
  if negb (ec =? 0) then
    cerr ("Failed to create bin directory: " +:+ ec_message env ec +:+ nl);;
    emit EvCurlGlobalCleanup;;
    ret 1
  else
    ok <- extract_archive env bytes (bin_dir m);;
    if negb ok then
      cerr ("claudev: Extraction failed" +:+ nl);;
      emit EvCurlGlobalCleanup;;
      ret 1
    else
      (if negb (String.eqb (Platform.os platform) "win32") then
         ok <- make_executable m env (binary_path m);;
         if negb ok then
           cerr ("Warning: Failed to set executable permissions" +:+ nl)
         else ret tt
       else ret tt);;
      cout ("claudev: Installed successfully!" +:+ nl);;
      emit EvCurlGlobalCleanup;;
      ret 0.

(** How a run of [main] ends: with the value it returns, or in
    [std::terminate] when an exception leaves it. *)
Inductive outcome :=
  | Returns (code : Z)
  | Terminates.

(** [main] as the process runs it. [fs::exists] at line 313 is the one call
    of [main] that throws on a condition of the file system with nothing to
    catch it ([download_file] catches what it throws, [create_directories]
    is given an [error_code]): when the status of the binary path cannot be
    read, the [filesystem_error] leaves [main] and the process ends there,
    after [curl_global_init] and the call itself. Otherwise [fs::exists]
    returns and the run is that of [main]. *)
Definition run_main (m : Macros) (env : Env) : M outcome :=
  if Platform.is_supported (Platform.detect m)
     && fault env (EvExists (binary_path m))
  then
    cout ("claudev: Installing binary..." +:+ nl);;
    emit EvCurlGlobalInit;;
    emit (EvExists (binary_path m));;
    ret Terminates
  else
    code <- main m env;;
    ret (Returns code).

(** The URL [main] asks for in world [w]. *)
Definition release_url (m : Macros) (env : Env) (w : World) : string :=
  build_url (fst (get_package_version m env w)) (Platform.detect m).

(** The bytes a transfer of that URL brings. *)
Definition release_bytes (m : Macros) (env : Env) (w : World)
  : list Byte.byte :=
  concat (chunks (curl_easy_perform env (request (release_url m env w)))).

(** The download of the release succeeds: the handle is made, the transfer
    ends with [CURLE_OK] and the status is 200. *)
Definition download_ok (m : Macros) (env : Env) (w : World) : Prop :=
  curl_easy_init_ok env = true
  /\ res (curl_easy_perform env (request (release_url m env w))) = CURLE_OK
  /\ response_code (curl_easy_perform env (request (release_url m env w))) = 200.

Definition is_global (e : event) : bool :=
  match e with EvCurlGlobalInit | EvCurlGlobalCleanup => true | _ => false end.

Definition is_chmod (e : event) : bool :=
  match e with EvChmod _ _ => true | _ => false end.

(** The transfers of a trace, with their options. *)
Definition curl_requests (evs : list event) : list curl_request :=
  omap (fun e => match e with EvCurlPerform req => Some req | _ => None end) evs.

(** The calls [install] makes between [create_directories] and the global
    cleanup: those of the extraction, and the [chmod] of the binary. *)
Definition is_install_call (e : event) : bool :=
  is_extraction e || is_chmod e.


(** Sample worlds for an unsupported target and for archives that do not
    extract. *)
Definition linux_arm64 : Macros :=
  {| _WIN32 := false; __APPLE__ := false; __linux__ := true;
     __x86_64__ := false; _M_X64 := false; __aarch64__ := true;
     _M_ARM64 := false; __FILE__ := "/pkg/scripts/postinstall.cpp" |}.

Definition env_empty : Env := sample_env 200 [].

(** Lines 355-360 of [main]: the permissions of the binary. *)
Definition set_permissions (m : Macros) (env : Env) : M unit :=
  if negb (String.eqb (Platform.os (Platform.detect m)) "win32") then
    ok <- make_executable m env (binary_path m);;
    if negb ok then
      cerr ("Warning: Failed to set executable permissions" +:+ nl)
    else ret tt
  else ret tt.

(** Bytes that cannot be extracted, whatever the disk does: the archive
    handles cannot be made, the bytes do not open as an archive, or the
    data of an entry ends with a read error. *)
Definition unreadable (env : Env) (bytes : list Byte.byte) : Prop :=
  archive_new_ok env = false
  \/ open_result (archive_read env bytes) <> ARCHIVE_OK
  \/ Exists (fun e => read_end e <> READ_EOF) (entries (archive_read env bytes)).

(** [same_files f f']: the regular files of [f'] are files of [f],
    unchanged. *)
Definition same_files (f f' : gmap (list string) node) : Prop :=
  forall l, is_file (lookup_node f' l) = true ->
            lookup_node f' l = lookup_node f l.

Definition env_unopened : Env :=
  {| curl_easy_init_ok := true;
     curl_easy_perform := curl_easy_perform env_ok;
     curl_easy_strerror := curl_easy_strerror env_ok;
     archive_new_ok := true;
     archive_read := fun _ =>
       {| open_result := ARCHIVE_FATAL; entries := [];
          headers_end := READ_FATAL;
          error_string := "Unrecognized archive format" |};
     write_error_string := write_error_string env_ok;
     ec_message := ec_message env_ok;
     mkdir_denied := fun _ => false;
     umask := 18;
     fault := fun _ => false |}.

(** A package directory that may not be searched: the status of the
    binary path cannot be read. *)
Definition env_locked : Env :=
  {| curl_easy_init_ok := true;
     curl_easy_perform := curl_easy_perform env_ok;
     curl_easy_strerror := curl_easy_strerror env_ok;
     archive_new_ok := true;
     archive_read := archive_read env_ok;
     write_error_string := write_error_string env_ok;
     ec_message := ec_message env_ok;
     mkdir_denied := fun _ => false;
     umask := 18;
     fault := fun e => match e with EvExists _ => true | _ => false end |}.

Definition env_no_curl : Env :=
  {| curl_easy_init_ok := false;
     curl_easy_perform := curl_easy_perform env_ok;
     curl_easy_strerror := curl_easy_strerror env_ok;
     archive_new_ok := true;
     archive_read := archive_read env_ok;
     write_error_string := write_error_string env_ok;
     ec_message := ec_message env_ok;
     mkdir_denied := fun _ => false;
     umask := 18;
     fault := fun _ => false |}.

(** * Properties *)

(** ** Platform detection *)

Lemma triple_of_row (o a : string) :
  Platform.triple_of o a = from_option fst EmptyString (release_row o a).
Proof.
  unfold Platform.triple_of, release_row, release_table, find.
  cbn [fst snd]. case_string_eqb; reflexivity.
Qed.

(** C2. Which build gets which row is decided by the symbols the compiler
    defines: [_WIN32] names the system win32 (windows in the table),
    otherwise [__APPLE__] names it darwin (macos), otherwise [__linux__]
    linux; [__x86_64__] or [_M_X64] names the architecture x64, otherwise
    [__aarch64__] or [_M_ARM64] arm64. For every setting of the symbols
    [Platform::detect] reports that pair, and with it the triple and the
    archive extension of the documented row when the pair is one of the four
    supported ones, and an empty triple with [is_supported] false for every
    other pair; each of the four rows is the documented one, and the triple
    map does the same on any two strings. *)
Theorem detect_release_table :
  (forall m,
     let p := Platform.detect m in
     Platform.os p
     = (if _WIN32 m then "win32"
        else if __APPLE__ m then "darwin"
        else if __linux__ m then "linux"
        else "unknown")
     /\ Platform.arch p
        = (if __x86_64__ m || _M_X64 m then "x64"
           else if __aarch64__ m || _M_ARM64 m then "arm64"
           else "unknown"))
  /\ (forall m,
        let p := Platform.detect m in
        let x64 := __x86_64__ m || _M_X64 m in
        let arm64 := negb x64 && (__aarch64__ m || _M_ARM64 m) in
        (Platform.target_triple p, Platform.archive_ext p)
        = (if _WIN32 m then
             ((if x64 then "x86_64-pc-windows-msvc" else EmptyString), "zip")
           else if __APPLE__ m then
             ((if x64 then "x86_64-apple-darwin"
               else if arm64 then "aarch64-apple-darwin"
               else EmptyString), "tar.gz")
           else if __linux__ m then
             ((if x64 then "x86_64-unknown-linux-gnu" else EmptyString),
              "tar.gz")
           else (EmptyString, EmptyString)))
  /\ (forall m,
        let p := Platform.detect m in
        match release_row (Platform.os p) (Platform.arch p) with
        | Some (triple, ext) =>
            Platform.target_triple p = triple
            /\ Platform.archive_ext p = ext
            /\ Platform.is_supported p = true
        | None =>
            Platform.target_triple p = EmptyString
            /\ Platform.is_supported p = false
        end)
  /\ (forall o a,
        match release_row o a with
        | Some (triple, _) =>
            Platform.triple_of o a = triple /\ triple <> EmptyString
        | None => Platform.triple_of o a = EmptyString
        end)
  /\ release_row "darwin" "x64" = Some ("x86_64-apple-darwin", "tar.gz")
  /\ release_row "darwin" "arm64" = Some ("aarch64-apple-darwin", "tar.gz")
  /\ release_row "linux" "x64" = Some ("x86_64-unknown-linux-gnu", "tar.gz")
  /\ release_row "win32" "x64" = Some ("x86_64-pc-windows-msvc", "zip").
Proof.
  split; [|split; [|split; [|split; [|repeat split]]]].
  - intros [w a l x mx a64 ma f].
    destruct w, a, l, x, mx, a64, ma; vm_compute; split; reflexivity.
  - intros [w a l x mx a64 ma f].
    destruct w, a, l, x, mx, a64, ma; vm_compute; reflexivity.
  - intros [w a l x mx a64 ma f].
    destruct w, a, l, x, mx, a64, ma; vm_compute; repeat split; reflexivity.
  - intros o a. rewrite triple_of_row.
    unfold release_row, release_table.
    destruct (find _ _) as [[[o' a'] [t e]]|] eqn:Hf; cbn; [|reflexivity].
    split; [reflexivity|].
    apply find_some in Hf. destruct Hf as [Hin _].
    cbn in Hin.
    repeat (destruct Hin as [Hin|Hin]; [inversion Hin; discriminate|]).
    destruct Hin.
Qed.

(** ** Strings *)

Local Arguments String.append : simpl nomatch.

Lemma append_assoc (a b c : string) : (a +:+ b) +:+ c = a +:+ b +:+ c.
Proof. induction a as [|x a IH]; cbn; [reflexivity | now rewrite IH]. Qed.

Lemma append_empty_r (a : string) : a +:+ EmptyString = a.
Proof. induction a as [|x a IH]; cbn; [reflexivity | now rewrite IH]. Qed.

Lemma length_append (a b : string) :
  String.length (a +:+ b) = (String.length a + String.length b)%nat.
Proof. induction a as [|x a IH]; cbn; [reflexivity | now rewrite IH]. Qed.

Lemma size_append (a b : string) : size (a +:+ b) = size a + size b.
Proof.
  unfold size. induction a as [|x a IH]; cbn [String.append String.length].
  - reflexivity.
  - rewrite !Nat2Z.inj_succ, IH. lia.
Qed.

Lemma size_nonneg (s : string) : 0 <= size s.
Proof. unfold size. lia. Qed.

Lemma size_String (c : ascii) (s : string) : size (String c s) = 1 + size s.
Proof. unfold size. cbn [String.length]. lia. Qed.

Lemma drop_str_append (a b : string) :
  drop_str (String.length a) (a +:+ b) = b.
Proof. induction a as [|x a IH]; cbn; [now destruct b | exact IH]. Qed.

Lemma take_str_append (a b : string) :
  take_str (String.length a) (a +:+ b) = a.
Proof.
  induction a as [|x a IH]; cbn; [now destruct b | now rewrite IH].
Qed.

Lemma prefix_append (n s : string) :
  String.prefix n s = true <-> exists b, s = n +:+ b.
Proof.
  revert s. induction n as [|x n IH]; intros s.
  - split; [intros _; now exists s | intros _; now destruct s].
  - destruct s as [|y s]; cbn.
    + split; [discriminate | intros [b Hb]; discriminate].
    + destruct (ascii_dec x y) as [->|Hxy].
      * rewrite IH. split; intros [b Hb]; exists b; congruence.
      * split; [discriminate | intros [b Hb]; congruence].
Qed.

Lemma index_str_Some (n s : string) (i : nat) :
  index_str n s = Some i -> contains n s /\ (i <= String.length s)%nat.
Proof.
  revert i. induction s as [|c s IH]; intros i; cbn [index_str].
  - destruct (String.prefix n EmptyString) eqn:Hp; [|discriminate].
    intros [= <-]. apply prefix_append in Hp as [b Hb].
    split; [exists EmptyString, b; exact Hb | cbn; lia].
  - destruct (String.prefix n (String c s)) eqn:Hp.
    + intros [= <-]. apply prefix_append in Hp as [b Hb].
      split; [exists EmptyString, b; exact Hb | cbn; lia].
    + destruct (index_str n s) as [j|] eqn:Hj; [|discriminate].
      intros [= <-]. destruct (IH j eq_refl) as [(a & b & ->) Hle].
      split; [exists (String c a), b; reflexivity | cbn; lia].
Qed.

Lemma index_str_None (n s : string) :
  index_str n s = None -> ~ contains n s.
Proof.
  induction s as [|c s IH]; cbn [index_str].
  - destruct (String.prefix n EmptyString) eqn:Hp; [discriminate|].
    intros _ (a & b & Hs).
    destruct a; [|discriminate]. cbn in Hs.
    assert (String.prefix n EmptyString = true)
      by (apply prefix_append; now exists b).
    congruence.
  - destruct (String.prefix n (String c s)) eqn:Hp; [discriminate|].
    destruct (index_str n s); [discriminate|].
    intros _ (a & b & Hs). destruct a as [|x a].
    + cbn in Hs.
      assert (String.prefix n (String c s) = true)
        by (apply prefix_append; now exists b).
      congruence.
    + injection Hs as -> ->. apply IH; [reflexivity | now exists a, b].
Qed.

Lemma find_str_npos (s n : string) :
  fits s -> (find_str s n =? npos) = true <-> ~ contains n s.
Proof.
  unfold find_str, fits, size. intros Hs.
  destruct (index_str n s) as [i|] eqn:Hi.
  - apply index_str_Some in Hi as [Hc Hle].
    split; [intros H; apply Z.eqb_eq in H; lia | tauto].
  - split; [intros _; now apply index_str_None | intros _; reflexivity].
Qed.

Lemma index_char_append (c : ascii) (a b : string) :
  index_char c a = None ->
  index_char c (a +:+ String c b) = Some (String.length a).
Proof.
  induction a as [|x a IH]; cbn.
  - intros _. now rewrite Ascii.eqb_refl.
  - destruct (Ascii.eqb x c); [discriminate|].
    destruct (index_char c a); [discriminate|].
    intros _. now rewrite IH.
Qed.

Lemma index_char_bound (c : ascii) (s : string) (i : nat) :
  index_char c s = Some i -> (i < String.length s)%nat.
Proof.
  revert i. induction s as [|x s IH]; intros i; cbn; [discriminate|].
  destruct (Ascii.eqb x c); [intros [= <-]; lia|].
  destruct (index_char c s) as [j|]; [|discriminate].
  intros [= <-]. specialize (IH j eq_refl). lia.
Qed.

Lemma length_drop_str (n : nat) (s : string) :
  String.length (drop_str n s) = (String.length s - n)%nat.
Proof.
  revert s. induction n as [|n IH]; intros [|c s]; cbn; auto.
Qed.

(** [find] gives [npos] or a position inside the string, at or after the
    one it started from. *)
Lemma find_char_range (s : string) (c : ascii) (pos : Z) :
  0 <= pos ->
  find_char s c pos = npos \/ (pos <= find_char s c pos < size s).
Proof.
  intros Hpos. unfold find_char.
  destruct (Z.leb_spec (size s) pos); [now left|].
  destruct (index_char c _) as [i|] eqn:Hi; [|now left].
  right. apply index_char_bound in Hi. rewrite length_drop_str in Hi.
  unfold size in *. lia.
Qed.

(** First occurrence, from a position inside the text before it. *)
Lemma find_char_append (a b : string) (c : ascii) (k : nat) :
  (k <= String.length a)%nat ->
  index_char c (drop_str k a) = None ->
  find_char (a +:+ String c b) c (Z.of_nat k) = size a.
Proof.
  intros Hk Hnone. unfold find_char.
  rewrite size_append, size_String.
  assert (Hsz : size a = Z.of_nat (String.length a)) by reflexivity.
  destruct (Z.leb_spec (size a + (1 + size b)) (Z.of_nat k)) as [Hle|_].
  { pose proof (size_nonneg b). lia. }
  rewrite Nat2Z.id.
  assert (Hsplit : a = take_str k a +:+ drop_str k a).
  { clear. revert a. induction k as [|k IH]; intros [|x a]; cbn; auto.
    now rewrite <- IH. }
  assert (Hlen : String.length (take_str k a) = k).
  { clear - Hk. revert a Hk. induction k as [|k IH]; intros [|x a] Hk; cbn in *;
      try lia; auto. rewrite IH; lia. }
  rewrite Hsplit at 1. rewrite append_assoc.
  rewrite <- Hlen at 1. rewrite drop_str_append.
  rewrite index_char_append by assumption.
  rewrite length_drop_str. lia.
Qed.

(** ** The version reader *)

Lemma size_t_small (z : Z) : 0 <= z < npos -> size_t z = z.
Proof. unfold size_t, npos. intros H. apply Z.mod_small. lia. Qed.

(** The [substr] of line 284 never throws: [start] is 0 or one past a
    position of the line. *)
Lemma substr_in_range (line : string) : is_Some (version_of_line line).
Proof.
  unfold version_of_line, substr.
  set (k := find_char line dquote (find_char line colon 0)).
  assert (Hk : k = npos \/ 0 <= k < size line).
  { subst k.
    destruct (find_char_range line colon 0) as [Hc|Hc]; [lia| |].
    - rewrite Hc. destruct (find_char_range line dquote npos) as [H|H];
        [unfold npos; lia | now left | right; unfold npos in *; lia].
    - destruct (find_char_range line dquote (find_char line colon 0)) as [H|H];
        [lia | now left | right; lia]. }
  assert (Hs : size_t (k + 1) <= size line).
  { destruct Hk as [->|Hk].
    - pose proof (size_nonneg line). vm_compute size_t. lia.
    - unfold size_t.
      pose proof (Z.mod_le (k + 1) 18446744073709551616). lia. }
  destruct (Z.ltb_spec (size line) (size_t (k + 1))); [lia | eauto].
Qed.

(** On a line [pre : mid "val" post], with no colon in [pre] and no quote in
    [mid] and [val], lines 282-284 yield [val]. *)
Lemma version_of_line_shape (line pre mid val post : string) :
  fits line ->
  line = pre +:+ String colon (mid +:+ String dquote (val +:+ String dquote post)) ->
  index_char colon pre = None ->
  index_char dquote mid = None ->
  index_char dquote val = None ->
  version_of_line line = Some val.
Proof.
  intros Hfits Hline Hpre Hmid Hval. unfold version_of_line.
  set (a := pre +:+ String colon mid).
  assert (Ha : line = a +:+ String dquote (val +:+ String dquote post)).
  { subst a line. rewrite append_assoc. reflexivity. }
  assert (Hsa : size a = size pre + 1 + size mid).
  { subst a. rewrite size_append, size_String. lia. }
  assert (Hsl : size line = size a + 1 + size val + 1 + size post).
  { rewrite Ha. rewrite size_append, size_String, size_append, size_String. lia. }
  pose proof (size_nonneg pre) as Hn1. pose proof (size_nonneg mid) as Hn2.
  pose proof (size_nonneg val) as Hn3. pose proof (size_nonneg post) as Hn4.
  unfold fits in Hfits.
  assert (H1 : find_char line colon 0 = size pre).
  { rewrite Hline. apply (find_char_append pre _ colon 0); [lia | exact Hpre]. }
  rewrite H1.
  assert (H2 : find_char line dquote (size pre) = size a).
  { rewrite Ha. unfold size at 1.
    apply (find_char_append a _ dquote (String.length pre)).
    - subst a. unfold size in Hsa. rewrite length_append. lia.
    - subst a. rewrite drop_str_append. cbn. now rewrite Hmid. }
  rewrite H2.
  rewrite (size_t_small (size a + 1)) by lia.
  set (a2 := a +:+ String dquote val).
  assert (Ha2 : line = a2 +:+ String dquote post).
  { subst a2. rewrite Ha, append_assoc. reflexivity. }
  assert (Hsa2 : size a2 = size a + 1 + size val).
  { subst a2. rewrite size_append, size_String. lia. }
  assert (H3 : find_char line dquote (size a + 1) = size a2).
  { rewrite Ha2.
    replace (size a + 1) with (Z.of_nat (S (String.length a)))
      by (unfold size; lia).
    apply find_char_append.
    - subst a2. rewrite length_append. cbn. lia.
    - subst a2. change (S (String.length a))
        with (String.length (String "x" EmptyString) + String.length a)%nat.
      replace (String.length (String "x" EmptyString) + String.length a)%nat
        with (String.length (a +:+ String dquote EmptyString)).
      + replace (a +:+ String dquote val)
          with ((a +:+ String dquote EmptyString) +:+ val)
          by (rewrite append_assoc; reflexivity).
        now rewrite drop_str_append.
      + rewrite length_append. cbn. lia. }
  rewrite H3.
  replace (size a2 - (size a + 1)) with (size val) by lia.
  rewrite (size_t_small (size val)) by lia.
  unfold substr.
  destruct (Z.ltb_spec (size line) (size a + 1)); [lia|].
  f_equal.
  rewrite Z.min_l by lia.
  replace (Z.to_nat (size val)) with (String.length val) by (unfold size; lia).
  replace (Z.to_nat (size a + 1))
    with (String.length (a +:+ String dquote EmptyString)).
  2:{ rewrite length_append. unfold size. cbn. lia. }
  rewrite Ha.
  replace (a +:+ String dquote (val +:+ String dquote post))
    with ((a +:+ String dquote EmptyString) +:+ (val +:+ String dquote post))
    by (rewrite append_assoc; reflexivity).
  rewrite drop_str_append. apply take_str_append.
Qed.

Lemma scan_lines_none (lines : list string) :
  Forall fits lines ->
  Forall (fun l => ~ contains version_key l) lines ->
  scan_lines lines = "0.5.0".
Proof.
  induction 1 as [|l ls Hl _ IH]; intros Hno; [reflexivity|].
  apply Forall_cons in Hno as [Hn Hno]. cbn [scan_lines].
  rewrite (proj2 (find_str_npos l version_key Hl) Hn). cbn. now apply IH.
Qed.

Lemma scan_lines_first (before after : list string) (line : string) :
  Forall fits before -> fits line ->
  Forall (fun l => ~ contains version_key l) before ->
  contains version_key line ->
  scan_lines (before ++ line :: after)
  = default EmptyString (version_of_line line).
Proof.
  intros Hf Hl Hno Hyes. induction Hf as [|l ls Hfl _ IH]; cbn [app scan_lines].
  - destruct (find_str line version_key =? npos) eqn:E; [|reflexivity].
    apply (find_str_npos line version_key Hl) in E. contradiction.
  - apply Forall_cons in Hno as [Hn Hno].
    rewrite (proj2 (find_str_npos l version_key Hfl) Hn). cbn. now apply IH.
Qed.

(** [get_package_version] on the lines [std::getline] hands out: the
    fallback when the file cannot be opened or no line contains the key;
    otherwise, on the first line that contains it, read as
    [pre : mid "val" post] with the first colon after [pre] and the first
    quote after that colon opening [val], the text [val]. *)
Lemma get_package_version_lines (m : Macros) (env : Env) (w : World) :
  let v := fst (get_package_version m env w) in
  let p := package_json m in
  p = path_append (parent_path (parent_path (__FILE__ m))) "package.json"
  /\ (fault env (EvOpenRead p) = true
      \/ is_file (lookup_node (fs w) (resolve p)) = false ->
      v = "0.5.0")
  /\ (forall mode content,
        fault env (EvOpenRead p) = false ->
        lookup_node (fs w) (resolve p) = Some (File mode content) ->
        let lines := getlines (string_of_list_byte content) in
        Forall fits lines ->
        (Forall (fun l => ~ contains version_key l) lines -> v = "0.5.0")
        /\ (forall before line after pre mid val post,
              lines = before ++ line :: after ->
              Forall (fun l => ~ contains version_key l) before ->
              contains version_key line ->
              line = pre +:+ String colon
                       (mid +:+ String dquote (val +:+ String dquote post)) ->
              index_char colon pre = None ->
              index_char dquote mid = None ->
              index_char dquote val = None ->
              v = val)).
Proof.
  cbn zeta. split; [reflexivity|].
  unfold get_package_version, ifstream_open, bind, emit, get_fs, ret.
  cbn [fst snd fs]. split.
  - intros [Hf|Hnf].
    + rewrite Hf. reflexivity.
    + destruct (fault env _); [reflexivity|].
      destruct (lookup_node _ _) as [[|? ?]|]; try reflexivity. discriminate.
  - intros mode content Hf Hlook Hfits. rewrite Hf, Hlook. cbn [fst].
    split.
    + intros Hno. now apply scan_lines_none.
    + intros before line after pre mid val post Hl Hno Hyes Hshape Hp Hm Hv.
      rewrite Hl in Hfits |- *.
      apply Forall_app in Hfits as [Hfb Hfl].
      apply Forall_cons in Hfl as [Hfl _].
      rewrite scan_lines_first by assumption.
      now rewrite (version_of_line_shape line pre mid val post).
Qed.

(** *** The lines of a text *)

Lemma index_char_append_None (c : ascii) (a b : string) :
  index_char c a = None -> index_char c b = None ->
  index_char c (a +:+ b) = None.
Proof.
  intros Ha Hb. induction a as [|x a IH]; cbn [String.append index_char] in *;
    [exact Hb|].
  destruct (Ascii.eqb x c); [discriminate|].
  destruct (index_char c a); [discriminate|].
  now rewrite IH.
Qed.

Lemma getlines_line (s rest : string) :
  no_newline s -> getlines (s +:+ nl +:+ rest) = s :: getlines rest.
Proof.
  unfold no_newline.
  induction s as [|c s IH]; cbn [String.append getlines index_char].
  - intros _. reflexivity.
  - destruct (Ascii.eqb c "010"); [discriminate|].
    destruct (index_char "010" s); [discriminate|].
    intros _. now rewrite IH.
Qed.

Lemma getlines_last (c : ascii) (s : string) :
  no_newline (String c s) -> getlines (String c s) = [String c s].
Proof.
  unfold no_newline. revert c.
  induction s as [|d s IH]; intros c; cbn [getlines index_char].
  - destruct (Ascii.eqb c "010"); [discriminate | reflexivity].
  - destruct (Ascii.eqb c "010"); [discriminate|].
    intros H.
    assert (Hd : index_char "010" (String d s) = None).
    { cbn [index_char]. destruct (Ascii.eqb d "010"); [discriminate|].
      destruct (index_char "010" s); [discriminate | reflexivity]. }
    specialize (IH d Hd). cbn [getlines] in IH. now rewrite IH.
Qed.

(** [std::getline] cuts the text at each newline; what follows the last
    newline is a line when it is not empty. *)
Lemma getlines_unlines (ls : list string) (last : string) :
  Forall no_newline ls -> no_newline last ->
  getlines (unlines ls +:+ last)
  = ls ++ (if Platform.empty last then [] else [last]).
Proof.
  intros HF Hl. induction HF as [|l ls Hn _ IH]; cbn [unlines app].
  - cbn [String.append]. destruct last as [|c s]; [reflexivity|].
    now apply getlines_last.
  - rewrite !append_assoc, getlines_line by exact Hn. now rewrite IH.
Qed.

Lemma one_line_shape (name version : string) :
  one_line name version
  = ("{" +:+ quoted "name")
      +:+ String colon
            (" " +:+ String dquote
               (name +:+ String dquote
                  (", " +:+ quoted "version" +:+ ": " +:+ quoted version
                        +:+ "}"))).
Proof.
  unfold one_line, quoted. cbn [String.append]. rewrite !append_assoc.
  reflexivity.
Qed.

Lemma one_line_no_newline (name version : string) :
  no_newline name -> no_newline version -> no_newline (one_line name version).
Proof.
  unfold no_newline. intros Hn Hv. rewrite one_line_shape.
  unfold quoted. cbn [String.append]. rewrite !append_assoc.
  cbn [String.append index_char Ascii.eqb Bool.eqb dquote colon fmap
       option_fmap option_map].
  rewrite index_char_append_None; [reflexivity | exact Hn|].
  cbn [String.append index_char Ascii.eqb Bool.eqb dquote colon fmap
       option_fmap option_map].
  rewrite index_char_append_None; [reflexivity | exact Hv | reflexivity].
Qed.

(** C9. On a [package.json] written on one line, with the name before the
    version, [get_package_version] does not return the value of the
    version field: line 282 looks for the colon from the start of the line,
    not from the key that line 281 found, so the text returned is the
    first quoted one after the first colon of the line, the package name,
    whatever the version is. *)
Theorem get_package_version_one_line (m : Macros) (env : Env) (w : World)
  (mode : Z) (name version : string) (eol : bool) :
  let text := one_line name version +:+ (if eol then nl else EmptyString) in
  fault env (EvOpenRead (package_json m)) = false ->
  lookup_node (fs w) (resolve (package_json m))
  = Some (File mode (list_byte_of_string text)) ->
  fits (one_line name version) ->
  no_newline name -> no_newline version ->
  index_char dquote name = None ->
  fst (get_package_version m env w) = name.
Proof.
  cbn zeta. intros Hf Hlook Hfits Hn Hv Hq.
  set (line := one_line name version) in *.
  assert (Hnl : no_newline line) by now apply one_line_no_newline.
  assert (Hlines : getlines (string_of_list_byte
                     (list_byte_of_string
                        (line +:+ (if eol then nl else EmptyString))))
                   = [] ++ line :: []).
  { rewrite string_of_list_byte_of_string. destruct eol.
    - change (line +:+ nl) with (line +:+ nl +:+ EmptyString).
      now rewrite getlines_line.
    - rewrite append_empty_r. subst line. rewrite one_line_shape in Hnl |- *.
      cbn [String.append] in Hnl |- *. now apply getlines_last. }
  destruct (get_package_version_lines m env w) as (_ & _ & H).
  destruct (H mode _ Hf Hlook) as [_ Hfirst].
  { rewrite Hlines. repeat constructor. exact Hfits. }
  apply (Hfirst [] line [] ("{" +:+ quoted "name") " " name
           (", " +:+ quoted "version" +:+ ": " +:+ quoted version +:+ "}")).
  - exact Hlines.
  - constructor.
  - exists ("{" +:+ quoted "name" +:+ ": " +:+ quoted name +:+ ", "),
           (": " +:+ quoted version +:+ "}").
    subst line. unfold one_line, version_key, quoted.
    cbn [String.append]. rewrite !append_assoc. cbn [String.append].
    reflexivity.
  - apply one_line_shape.
  - reflexivity.
  - reflexivity.
  - exact Hq.
Qed.

(** X18. What the version reader does on every text. [std::getline] cuts
    the file at each newline, the text after the last newline being a line
    when it is not empty. When [package.json] cannot be opened, or none of
    its lines contains the quoted key, the value is 0.5.0. When the first
    line that contains the key has the version field as its first field
    (no colon before the key, then a colon and the value in quotes), the
    value is that of the version field. *)
Theorem get_package_version_own_line (m : Macros) (env : Env) (w : World) :
  let v := fst (get_package_version m env w) in
  let p := package_json m in
  p = path_append (parent_path (parent_path (__FILE__ m))) "package.json"
  /\ (forall ls last,
        Forall no_newline ls -> no_newline last ->
        getlines (unlines ls +:+ last)
        = ls ++ (if Platform.empty last then [] else [last]))
  /\ (fault env (EvOpenRead p) = true
      \/ is_file (lookup_node (fs w) (resolve p)) = false ->
      v = "0.5.0")
  /\ (forall mode ls last,
        fault env (EvOpenRead p) = false ->
        lookup_node (fs w) (resolve p)
        = Some (File mode (list_byte_of_string (unlines ls +:+ last))) ->
        Forall no_newline ls -> no_newline last ->
        let lines := ls ++ (if Platform.empty last then [] else [last]) in
        Forall fits lines ->
        (Forall (fun l => ~ contains (quoted "version") l) lines ->
         v = "0.5.0")
        /\ (forall before line after indent mid val post,
              lines = before ++ line :: after ->
              Forall (fun l => ~ contains (quoted "version") l) before ->
              line = indent +:+ quoted "version"
                       +:+ String colon (mid +:+ quoted val +:+ post) ->
              index_char colon indent = None ->
              index_char dquote mid = None ->
              index_char dquote val = None ->
              v = val)).
Proof.
  cbn zeta. split; [reflexivity|]. split; [apply getlines_unlines|].
  destruct (get_package_version_lines m env w) as (_ & Hfall & H).
  split; [exact Hfall|].
  intros mode ls last Hf Hlook Hls Hlast Hfits.
  assert (Hlines : getlines (string_of_list_byte
                     (list_byte_of_string (unlines ls +:+ last)))
                   = ls ++ (if Platform.empty last then [] else [last])).
  { rewrite string_of_list_byte_of_string. now apply getlines_unlines. }
  destruct (H mode _ Hf Hlook) as [Hnone Hfirst].
  { now rewrite Hlines. }
  rewrite Hlines in Hnone, Hfirst. split; [exact Hnone|].
  intros before line after indent mid val post Hsplit Hno Hline Hi Hm Hv.
  apply (Hfirst before line after (indent +:+ quoted "version") mid val post
           Hsplit Hno).
  - exists indent, (String colon (mid +:+ quoted val +:+ post)).
    rewrite Hline. reflexivity.
  - rewrite Hline. unfold quoted. rewrite !append_assoc.
    cbn [String.append]. rewrite !append_assoc. reflexivity.
  - apply index_char_append_None; [exact Hi | reflexivity].
  - exact Hm.
  - exact Hv.
Qed.

(** ** Running the monad *)

Lemma bind_run {A B} (c : M A) (k : A -> M B) (w : World) :
  bind c k w = k (fst (c w)) (snd (c w)).
Proof. unfold bind. now destruct (c w). Qed.

(** ** The download *)

Lemma receive_run (cs : list (list Byte.byte)) (b : DownloadBuffer) (w : World) :
  data (fst (receive cs b w)) = data b ++ concat cs
  /\ fs (snd (receive cs b w)) = fs w
  /\ stderr (snd (receive cs b w)) = stderr w
  /\ trace (snd (receive cs b w)) = trace w.
Proof.
  revert b w. induction cs as [|c cs IH]; intros b w; cbn [receive concat].
  - rewrite app_nil_r. cbn. auto.
  - unfold bind, write_callback.
    destruct (last_reported_mb b <? _); cbn;
      match goal with
      | |- context [receive cs ?b' ?w'] =>
          destruct (IH b' w') as (-> & -> & -> & ->)
      end; cbn; rewrite <- app_assoc; auto.
Qed.

(** What [download_file] returns: the whole body when the handle could be
    made, the transfer ended with [CURLE_OK] and the status is 200;
    [std::nullopt] in every other case. *)
Lemma download_file_result (env : Env) (url : string) (w : World) :
  let r := curl_easy_perform env (request url) in
  fst (download_file env url w)
  = if curl_easy_init_ok env && (res r =? CURLE_OK) && (response_code r =? 200)
    then Some (concat (chunks r)) else None.
Proof.
  cbn zeta. unfold download_file.
  destruct (curl_easy_init_ok env); cbn [negb andb]; [|reflexivity].
  unfold bind at 1. cbn [emit]. unfold bind at 1.
  destruct (receive _ _ _) as [b w'] eqn:Hr.
  pose proof (receive_run (chunks (curl_easy_perform env (request url)))
                {| data := []; last_reported_mb := 0 |}
                {| fs := fs w; stdout := stdout w; stderr := stderr w;
                   trace := trace w ++ [EvCurlPerform (request url)] |})
    as (Hd & _).
  rewrite Hr in Hd. cbn in Hd.
  destruct (res _ =? CURLE_OK); cbn [negb andb]; [|reflexivity].
  destruct (response_code _ =? 200); cbn [negb]; [|reflexivity].
  cbn. now rewrite Hd.
Qed.

(** What [download_file] leaves behind: the file system as it was, one
    transfer in the trace when the handle could be made, and on the error
    stream the reason of a failure. *)
Lemma download_file_world (env : Env) (url : string) (w : World) :
  let r := curl_easy_perform env (request url) in
  let w' := snd (download_file env url w) in
  fs w' = fs w
  /\ trace w' = trace w ++ (if curl_easy_init_ok env
                            then [EvCurlPerform (request url)] else [])
  /\ stderr w'
     = stderr w +:+
       (if negb (curl_easy_init_ok env)
        then nl +:+ "Download exception: Failed to initialize CURL" +:+ nl
        else if negb (res r =? CURLE_OK)
        then nl +:+ "Download failed: " +:+ curl_easy_strerror env (res r) +:+ nl
        else if negb (response_code r =? 200)
        then nl +:+ "HTTP " +:+ pretty (response_code r) +:+ nl
        else EmptyString).
Proof.
  cbn zeta. unfold download_file.
  destruct (curl_easy_init_ok env); cbn [negb].
  2:{ cbn. rewrite app_nil_r. auto. }
  rewrite !bind_run. cbn [emit fst snd].
  match goal with
  | |- context [receive ?cs ?b ?w0] =>
      destruct (receive_run cs b w0) as (_ & Hf & He & Ht)
  end.
  cbn [fs stderr trace] in Hf, He, Ht.
  destruct (res _ =? CURLE_OK); cbn [negb].
  2:{ rewrite !bind_run. cbn. rewrite Hf, He, Ht. auto. }
  destruct (response_code _ =? 200); cbn [negb];
    rewrite !bind_run; cbn; rewrite Hf, He, Ht, ?append_empty_r; auto.
Qed.

(** Every failure yields [std::nullopt]. *)
Lemma download_file_failure (env : Env) (url : string) (w : World) :
  let r := curl_easy_perform env (request url) in
  curl_easy_init_ok env = false \/ res r <> CURLE_OK \/ response_code r <> 200 ->
  fst (download_file env url w) = None.
Proof.
  cbn zeta. intros H. rewrite download_file_result.
  destruct (curl_easy_init_ok env); cbn [andb]; [|reflexivity].
  destruct (Z.eqb_spec (res (curl_easy_perform env (request url))) CURLE_OK);
    cbn [andb]; [|reflexivity].
  destruct (Z.eqb_spec (response_code (curl_easy_perform env (request url))) 200);
    [|reflexivity].
  destruct H as [H|[H|H]]; [discriminate | contradiction | contradiction].
Qed.

(** C7. When the last response of a transfer has a status outside 200-299,
    [download_file] returns [std::nullopt], whatever bytes came in, and the
    error stream receives the status code, or libcurl's error string when
    the transfer itself failed. It returns a buffer only when the transfer
    succeeded with status 200, and the buffer is then the whole body: on a
    failure of any kind no received byte reaches the caller. *)
Theorem download_file_non_2xx (env : Env) (url : string) (w : World) :
  let r := curl_easy_perform env (request url) in
  let out := download_file env url w in
  (curl_easy_init_ok env = true ->
   ~ (200 <= response_code r < 300) ->
   fst out = None
   /\ stderr (snd out)
      = stderr w +:+
        (if res r =? CURLE_OK
         then nl +:+ "HTTP " +:+ pretty (response_code r) +:+ nl
         else nl +:+ "Download failed: "
                +:+ curl_easy_strerror env (res r) +:+ nl))
  /\ (curl_easy_init_ok env = false \/ res r <> CURLE_OK
      \/ response_code r <> 200 ->
      fst out = None)
  /\ (forall d, fst out = Some d ->
        res r = CURLE_OK /\ response_code r = 200 /\ d = concat (chunks r)).
Proof.
  cbn zeta.
  pose proof (download_file_result env url w) as Hres.
  pose proof (download_file_world env url w) as (_ & _ & Herr).
  cbn zeta in Hres, Herr. split; [|split].
  - intros Hinit Hcode. rewrite Hres, Herr, Hinit. cbn [negb andb].
    destruct (Z.eqb_spec (response_code (curl_easy_perform env (request url))) 200)
      as [E|E]; [lia|].
    rewrite andb_false_r. split; [reflexivity|].
    destruct (res _ =? CURLE_OK); reflexivity.
  - apply download_file_failure.
  - intros d. rewrite Hres.
    destruct (curl_easy_init_ok env); cbn [andb]; [|discriminate].
    destruct (Z.eqb_spec (res (curl_easy_perform env (request url))) CURLE_OK);
      cbn [andb]; [|discriminate].
    destruct (Z.eqb_spec (response_code (curl_easy_perform env (request url))) 200);
      [|discriminate].
    intros [= <-]. auto.
Qed.

(** C10. [download_file] compares the status with 200 and nothing else: for
    every other status, 204 and 206 among them, it returns [std::nullopt]
    and the bytes received are dropped with the buffer; a returned buffer
    means the status was 200. *)
Theorem download_file_only_200 (env : Env) (url : string) (w : World) :
  let r := curl_easy_perform env (request url) in
  response_code r <> 200 ->
  fst (download_file env url w) = None
  /\ forall env' w' d,
       fst (download_file env' url w') = Some d ->
       response_code (curl_easy_perform env' (request url)) = 200.
Proof.
  cbn zeta. intros Hcode. split.
  - rewrite download_file_result.
    destruct (Z.eqb_spec (response_code (curl_easy_perform env (request url))) 200);
      [contradiction|].
    now rewrite andb_false_r.
  - intros env' w' d. rewrite download_file_result.
    destruct (Z.eqb_spec (response_code (curl_easy_perform env' (request url))) 200);
      [auto|].
    rewrite andb_false_r. discriminate.
Qed.

(** ** The calls of the extraction *)

Lemma extends_refl (P : event -> bool) (w w' : World) :
  trace w' = trace w -> extends P w w'.
Proof. intros H. exists []. rewrite app_nil_r. auto. Qed.

Lemma extends_one (P : event -> bool) (w w' : World) (e : event) :
  trace w' = trace w ++ [e] -> P e = true -> extends P w w'.
Proof. intros H He. exists [e]. auto. Qed.

Lemma extends_trans (P : event -> bool) (w1 w2 w3 : World) :
  extends P w1 w2 -> extends P w2 w3 -> extends P w1 w3.
Proof.
  intros (e1 & H1 & F1) (e2 & H2 & F2). exists (e1 ++ e2).
  rewrite H2, H1, app_assoc. split; [reflexivity | now apply Forall_app].
Qed.

Lemma cerr_trace (s : string) (w : World) : trace (snd (cerr s w)) = trace w.
Proof. reflexivity. Qed.

Lemma archive_write_header_trace (env : Env) (flags : Z) (p : string)
  (e : archive_entry) (w : World) :
  trace (snd (archive_write_header env flags p e w)) = trace w ++ [EvWriteHeader p].
Proof.
  unfold archive_write_header. rewrite !bind_run. cbn [emit get_fs fst snd fs].
  destruct (_ && _); [reflexivity|].
  destruct (fault env _); [reflexivity|].
  destruct (existsb _ _); [reflexivity|].
  destruct (lookup_node _ _) as [[|? ?]|]; reflexivity.
Qed.

Lemma archive_write_data_block_trace (env : Env) (p : string) (b : data_block)
  (w : World) :
  trace (snd (archive_write_data_block env p b w))
  = trace w ++ [EvWriteDataBlock p (offset b) (List.length (buff b))].
Proof.
  unfold archive_write_data_block. rewrite !bind_run.
  cbn [emit get_fs fst snd fs].
  destruct (fault env _); [reflexivity|].
  destruct (lookup_node _ _) as [[|? ?]|]; reflexivity.
Qed.

Lemma archive_write_finish_entry_trace (env : Env) (flags : Z) (p : string)
  (e : archive_entry) (w : World) :
  trace (snd (archive_write_finish_entry env flags p e w))
  = trace w ++ [EvWriteFinishEntry p].
Proof.
  unfold archive_write_finish_entry. rewrite !bind_run.
  cbn [emit get_fs fst snd fs].
  destruct (fault env _); [reflexivity|].
  destruct (lookup_node _ _) as [[|? ?]|]; reflexivity.
Qed.

Lemma copy_data_extends (env : Env) (p : string) (bs : list data_block)
  (e : archive_entry) (w : World) :
  extends is_extraction w (snd (copy_data env p bs e w)).
Proof.
  revert w. induction bs as [|b bs IH]; intros w; cbn [copy_data].
  - now apply extends_refl.
  - rewrite bind_run.
    assert (H1 : extends is_extraction w
                   (snd (archive_write_data_block env p b w))).
    { eapply extends_one; [apply archive_write_data_block_trace | reflexivity]. }
    destruct (negb _).
    + rewrite bind_run. cbn [ret snd].
      eapply extends_trans; [exact H1 | now apply extends_refl].
    + eapply extends_trans; [exact H1 | apply IH].
Qed.

Lemma extract_entries_extends (env : Env) (re dest : string)
  (es : list archive_entry) (w : World) :
  extends is_extraction w (snd (extract_entries env re dest es w)).
Proof.
  revert w. induction es as [|e es IH]; intros w; cbn [extract_entries].
  - now apply extends_refl.
  - cbn zeta. rewrite bind_run.
    set (p := path_append dest (pathname e)).
    assert (H1 : extends is_extraction w
                   (snd (archive_write_header env extract_flags p e w))).
    { eapply extends_one; [apply archive_write_header_trace | reflexivity]. }
    destruct (negb _).
    { rewrite bind_run. cbn [ret snd].
      eapply extends_trans; [exact H1 | now apply extends_refl]. }
    rewrite bind_run.
    set (w1 := snd (archive_write_header env extract_flags p e w)) in *.
    assert (H2 : extends is_extraction w
                   (snd (copy_data env p (blocks e) e w1))).
    { eapply extends_trans; [exact H1 | apply copy_data_extends]. }
    destruct (negb _).
    { rewrite bind_run. cbn [ret snd].
      eapply extends_trans; [exact H2 | now apply extends_refl]. }
    rewrite bind_run.
    set (w2 := snd (copy_data env p (blocks e) e w1)) in *.
    assert (H3 : extends is_extraction w
                   (snd (archive_write_finish_entry env extract_flags p e w2))).
    { eapply extends_trans; [exact H2|].
      eapply extends_one; [apply archive_write_finish_entry_trace | reflexivity]. }
    destruct (negb _).
    { rewrite bind_run. cbn [ret snd].
      eapply extends_trans; [exact H3 | now apply extends_refl]. }
    eapply extends_trans; [exact H3 | apply IH].
Qed.

Lemma extract_archive_extends (env : Env) (bytes : list Byte.byte)
  (dest : string) (w : World) :
  extends is_extraction w (snd (extract_archive env bytes dest w)).
Proof.
  unfold extract_archive. destruct (negb (archive_new_ok env)).
  { rewrite bind_run. now apply extends_refl. }
  rewrite bind_run. cbn [emit fst snd].
  match goal with
  | |- context [{| fs := _; stdout := _; stderr := _; trace := ?t |}] =>
      set (w1 := {| fs := fs w; stdout := stdout w; stderr := stderr w;
                    trace := t |})
  end.
  assert (H1 : extends is_extraction w w1)
    by (eapply extends_one; reflexivity).
  destruct (negb _).
  - rewrite bind_run. cbn [ret snd].
    eapply extends_trans; [exact H1 | now apply extends_refl].
  - eapply extends_trans; [exact H1 | apply extract_entries_extends].
Qed.

(** ** main *)

Lemma new_events_app (w w' : World) (evs : list event) :
  trace w' = trace w ++ evs -> new_events w w' = evs.
Proof. unfold new_events. intros ->. apply drop_app_length. Qed.

Lemma fs_exists_run (p : string) (w : World) :
  fs_exists p w
  = (bool_decide (is_Some (lookup_node (fs w) (resolve p))),
     {| fs := fs w; stdout := stdout w; stderr := stderr w;
        trace := trace w ++ [EvExists p] |}).
Proof. reflexivity. Qed.

(** [fs::exists] looks at the file system only. *)
Lemma fs_exists_fs (p : string) (w w' : World) :
  fs w' = fs w -> fst (fs_exists p w') = fst (fs_exists p w).
Proof. intros H. rewrite !fs_exists_run. cbn. now rewrite H. Qed.

Lemma get_package_version_world (m : Macros) (env : Env) (w : World) :
  snd (get_package_version m env w)
  = {| fs := fs w; stdout := stdout w; stderr := stderr w;
       trace := trace w ++ [EvOpenRead (package_json m)] |}.
Proof.
  unfold get_package_version, ifstream_open.
  rewrite !bind_run. cbn [emit get_fs fst snd fs].
  destruct (fault env _); cbn; [reflexivity|].
  destruct (lookup_node _ _) as [[|? ?]|]; reflexivity.
Qed.

Lemma get_package_version_fs (m : Macros) (env : Env) (w w' : World) :
  fs w' = fs w ->
  fst (get_package_version m env w') = fst (get_package_version m env w).
Proof.
  intros H. unfold get_package_version, ifstream_open.
  rewrite !bind_run. cbn [emit get_fs fst snd fs]. rewrite H.
  destruct (fault env _); cbn; [reflexivity|].
  destruct (lookup_node _ _) as [[|? ?]|]; reflexivity.
Qed.


Lemma create_directories_run (env : Env) (p : string) (w : World) :
  create_directories env p w
  = (fst (mkdirs env (ancestors (resolve p) ++ [resolve p]) (fs w)),
     {| fs := snd (mkdirs env (ancestors (resolve p) ++ [resolve p]) (fs w));
        stdout := stdout w; stderr := stderr w;
        trace := trace w ++ [EvCreateDirectories p] |}).
Proof.
  unfold create_directories. rewrite !bind_run. cbn [emit get_fs fst snd fs].
  destruct (mkdirs _ _ _). reflexivity.
Qed.

Lemma create_directories_fs (env : Env) (p : string) (w w' : World) :
  fs w' = fs w ->
  fst (create_directories env p w') = fst (create_directories env p w).
Proof. intros H. rewrite !create_directories_run. cbn. now rewrite H. Qed.

(** C4. On a supported platform with no binary yet, when the download fails
    (the handle cannot be made, the transfer ends with an error, or the
    status is not 200, which covers every status outside 200-299), [main]
    prints the two lines of guidance on the error stream and returns 0; the
    file system is as it was and no call writes to it: the bin directory is
    not created. *)
Theorem main_download_failure (m : Macros) (env : Env) (w : World) :
  Platform.is_supported (Platform.detect m) = true ->
  fst (fs_exists (binary_path m) w) = false ->
  let url := build_url (fst (get_package_version m env w)) (Platform.detect m) in
  let r := curl_easy_perform env (request url) in
  curl_easy_init_ok env = false \/ res r <> CURLE_OK \/ response_code r <> 200 ->
  let out := main m env w in
  fst out = 0
  /\ (exists diag,
        stderr (snd out)
        = stderr w +:+ diag +:+ "claudev: Download failed" +:+ nl
            +:+ "claudev: Install manually: cargo install claudev" +:+ nl)
  /\ fs (snd out) = fs w
  /\ Forall (fun e => is_fs_write e = false) (new_events w (snd out)).
Proof.
  intros Hsup Hnex. cbn zeta. intros Hfail.
  pose proof (download_file_failure env) as Hnone.
  unfold main. rewrite !bind_run. cbn [cout emit fst snd].
  rewrite Hsup. cbn [negb]. rewrite !bind_run.
  rewrite (fs_exists_fs (binary_path m) w) by reflexivity.
  rewrite Hnex. rewrite !bind_run.
  rewrite fs_exists_run. cbn [snd].
  rewrite get_package_version_world.
  rewrite (get_package_version_fs m env w) by reflexivity.
  cbn [cout fst snd fs stdout stderr trace].
  set (url := build_url _ _) in *.
  rewrite (Hnone url _ Hfail).
  rewrite !bind_run. cbn [cerr emit ret fst snd fs stderr trace].
  match goal with
  | |- context [download_file env url ?w0] =>
      destruct (download_file_world env url w0) as (Hf & Ht & He)
  end.
  cbn [fs stderr trace] in Hf, Ht, He.
  split; [reflexivity|]. split; [|split].
  - rewrite He, !append_assoc. eexists. reflexivity.
  - exact Hf.
  - erewrite new_events_app.
    2:{ rewrite Ht. rewrite <- !app_assoc. reflexivity. }
    destruct (curl_easy_init_ok env); repeat constructor.
Qed.

Lemma extends_mono (P Q : event -> bool) (w w' : World) :
  (forall e, P e = true -> Q e = true) -> extends P w w' -> extends Q w w'.
Proof.
  intros HPQ (evs & Ht & HF). exists evs. split; [exact Ht|].
  eapply Forall_impl; [exact HF | exact HPQ].
Qed.

Lemma extends_new_events (P : event -> bool) (w w' : World) :
  extends P w w' -> Forall (fun e => P e = true) (new_events w w').
Proof. intros (evs & Ht & HF). now rewrite (new_events_app w w' evs Ht). Qed.

Lemma chmod_trace (env : Env) (p : string) (mode : Z) (w : World) :
  trace (snd (chmod env p mode w)) = trace w ++ [EvChmod p mode].
Proof.
  unfold chmod. rewrite !bind_run. cbn [emit get_fs fst snd fs].
  destruct (fault env _); [reflexivity|].
  destruct (lookup_node _ _) as [[|? ?]|]; reflexivity.
Qed.

Lemma make_executable_extends (m : Macros) (env : Env) (p : string) (w : World) :
  extends not_network w (snd (make_executable m env p w)).
Proof.
  unfold make_executable. destruct (negb (_WIN32 m)).
  - rewrite bind_run. cbn [ret snd].
    eapply extends_one; [apply chmod_trace | reflexivity].
  - now apply extends_refl.
Qed.

(** What follows a successful download adds no transfer. *)
Lemma install_extends (m : Macros) (env : Env) (bytes : list Byte.byte)
  (k : M Z) (w : World) :
  k = (ec <- create_directories env (bin_dir m);;
       if negb (ec =? 0) then
         cerr ("Failed to create bin directory: " +:+ ec_message env ec +:+ nl);;
         emit EvCurlGlobalCleanup;;
         ret 1
       else
         ok <- extract_archive env bytes (bin_dir m);;
         if negb ok then
           cerr ("claudev: Extraction failed" +:+ nl);;
           emit EvCurlGlobalCleanup;;
           ret 1
         else
           (if negb (String.eqb (Platform.os (Platform.detect m)) "win32") then
              ok <- make_executable m env (binary_path m);;
              if negb ok then
                cerr ("Warning: Failed to set executable permissions" +:+ nl)
              else ret tt
            else ret tt);;
           cout ("claudev: Installed successfully!" +:+ nl);;
           emit EvCurlGlobalCleanup;;
           ret 0)%prog ->
  extends not_network w (snd (k w)).
Proof.
  intros ->. rewrite bind_run. rewrite create_directories_run. cbn [fst snd].
  match goal with
  | |- context [{| fs := ?f; stdout := _; stderr := _; trace := ?t |}] =>
      set (w1 := {| fs := f; stdout := stdout w; stderr := stderr w;
                    trace := t |})
  end.
  assert (H1 : extends not_network w w1) by (eapply extends_one; reflexivity).
  destruct (negb _).
  { rewrite !bind_run. cbn [cerr emit ret snd].
    eapply extends_trans; [exact H1|]. eapply extends_one; reflexivity. }
  rewrite bind_run.
  set (w2 := snd (extract_archive env bytes (bin_dir m) w1)).
  assert (H2 : extends not_network w w2).
  { eapply extends_trans; [exact H1|].
    eapply extends_mono; [|apply extract_archive_extends].
    now intros []. }
  destruct (negb _).
  { rewrite !bind_run. cbn [cerr emit ret snd].
    eapply extends_trans; [exact H2|]. eapply extends_one; reflexivity. }
  rewrite bind_run.
  match goal with
  | |- context [snd ((if ?c then ?a else ?b) w2)] =>
      set (w3 := snd ((if c then a else b) w2))
  end.
  assert (H3 : extends not_network w w3).
  { eapply extends_trans; [exact H2|]. subst w3.
    destruct (negb (String.eqb _ _)); [|now apply extends_refl].
    rewrite bind_run.
    eapply extends_trans; [apply make_executable_extends|].
    destruct (negb _); now apply extends_refl. }
  rewrite !bind_run. cbn [cout emit ret snd].
  eapply extends_trans; [exact H3|]. eapply extends_one; reflexivity.
Qed.

Lemma download_file_success (env : Env) (url : string) (w : World) :
  let r := curl_easy_perform env (request url) in
  curl_easy_init_ok env = true -> res r = CURLE_OK -> response_code r = 200 ->
  fst (download_file env url w) = Some (concat (chunks r)).
Proof.
  cbn zeta. intros Hi Hr Hc. rewrite download_file_result, Hi, Hr, Hc.
  reflexivity.
Qed.

(** C5. On a supported platform with no binary yet and a download that
    succeeds, when [create_directories] reports an error for the bin
    directory, [main] prints the error and returns 1, and no call of the
    extraction is made. *)
Theorem main_mkdir_failure (m : Macros) (env : Env) (w : World) :
  Platform.is_supported (Platform.detect m) = true ->
  fst (fs_exists (binary_path m) w) = false ->
  let url := build_url (fst (get_package_version m env w)) (Platform.detect m) in
  let r := curl_easy_perform env (request url) in
  curl_easy_init_ok env = true -> res r = CURLE_OK -> response_code r = 200 ->
  let ec := fst (create_directories env (bin_dir m) w) in
  ec <> 0 ->
  let out := main m env w in
  fst out = 1
  /\ stderr (snd out)
     = stderr w +:+ "Failed to create bin directory: " +:+ ec_message env ec +:+ nl
  /\ Forall (fun e => is_extraction e = false) (new_events w (snd out)).
Proof.
  intros Hsup Hnex. cbn zeta. intros Hinit Hres Hcode Hec.
  unfold main. rewrite !bind_run. cbn [cout emit fst snd].
  rewrite Hsup. cbn [negb]. rewrite !bind_run.
  rewrite (fs_exists_fs (binary_path m) w) by reflexivity.
  rewrite Hnex. rewrite !bind_run.
  rewrite fs_exists_run. cbn [snd].
  rewrite get_package_version_world.
  rewrite (get_package_version_fs m env w) by reflexivity.
  cbn [cout fst snd fs stdout stderr trace].
  set (url := build_url _ _) in *.
  rewrite (download_file_success env url _ Hinit Hres Hcode).
  match goal with
  | |- context [download_file env url ?w0] =>
      destruct (download_file_world env url w0) as (Hf & Ht & He);
      set (w3 := snd (download_file env url w0)) in *
  end.
  cbn [fs stderr trace] in Hf, Ht, He.
  rewrite Hinit in Ht. rewrite Hinit, Hres, Hcode in He.
  cbn [negb Z.eqb CURLE_OK] in He. rewrite append_empty_r in He.
  rewrite !bind_run.
  rewrite (create_directories_fs env (bin_dir m) w w3 Hf).
  destruct (Z.eqb_spec (fst (create_directories env (bin_dir m) w)) 0) as [E|_];
    [contradiction|].
  cbn [negb]. rewrite !bind_run. rewrite !create_directories_run.
  cbn [cerr emit ret fst snd fs stderr trace].
  split; [reflexivity|]. split.
  - now rewrite He.
  - erewrite new_events_app.
    2:{ rewrite Ht. rewrite <- !app_assoc. reflexivity. }
    repeat constructor.
Qed.

Lemma requested_urls_app (a b : list event) :
  requested_urls (a ++ b) = requested_urls a ++ requested_urls b.
Proof. apply omap_app. Qed.

Lemma requested_urls_quiet (evs : list event) :
  Forall (fun e => not_network e = true) evs -> requested_urls evs = [].
Proof.
  induction 1 as [|e evs He _ IH]; [reflexivity|].
  destruct e; try discriminate; exact IH.
Qed.

Lemma requested_urls_extends (w w1 w2 : World) (evs : list event) :
  trace w1 = trace w ++ evs ->
  extends not_network w1 w2 ->
  requested_urls (new_events w w2) = requested_urls evs.
Proof.
  intros H1 (evs2 & H2 & HF).
  rewrite (new_events_app w w2 (evs ++ evs2)).
  - rewrite requested_urls_app, (requested_urls_quiet evs2 HF).
    apply app_nil_r.
  - rewrite H2, H1. now rewrite app_assoc.
Qed.

(** C6. The URL is the concatenation of the host, [openSVM/vibedev],
    [/releases/download/v], the version, [/], [claudev], [-], the release
    triple, [.] and the archive extension, each taken as it is; for version
    0.5.0, triple x86_64-unknown-linux-gnu and extension tar.gz it is the
    documented one; and a run of [main] asks for that URL, built from the
    package version and the detected platform, and for no other (for none
    at all when the platform is unsupported, the binary is there, or the
    handle cannot be made). *)
Theorem url_construction :
  (forall version platform,
     build_url version platform
     = "https://" +:+ "github.com" +:+ "/" +:+ "openSVM" +:+ "/" +:+ "vibedev"
         +:+ "/releases/download/v" +:+ version +:+ "/" +:+ "claudev" +:+ "-"
         +:+ Platform.target_triple platform +:+ "."
         +:+ Platform.archive_ext platform)
  /\ build_url "0.5.0"
       {| Platform.os := "linux"; Platform.arch := "x64";
          Platform.target_triple := "x86_64-unknown-linux-gnu";
          Platform.archive_ext := "tar.gz" |}
     = "https://github.com/openSVM/vibedev/releases/download/v0.5.0/claudev-x86_64-unknown-linux-gnu.tar.gz"
  /\ (forall m env w,
        requested_urls (new_events w (snd (main m env w)))
        = if Platform.is_supported (Platform.detect m)
             && negb (fst (fs_exists (binary_path m) w))
             && curl_easy_init_ok env
          then [build_url (fst (get_package_version m env w)) (Platform.detect m)]
          else []).
Proof.
  split; [reflexivity|]. split; [reflexivity|].
  intros m env w. unfold main. rewrite !bind_run. cbn [cout emit fst snd].
  destruct (Platform.is_supported (Platform.detect m)); cbn [negb andb].
  2:{ rewrite !bind_run. cbn [cerr emit ret snd].
      erewrite new_events_app.
      2:{ cbn [trace]. rewrite <- !app_assoc. reflexivity. }
      reflexivity. }
  rewrite !bind_run.
  rewrite (fs_exists_fs (binary_path m) w) by reflexivity.
  destruct (fst (fs_exists (binary_path m) w)); cbn [negb andb].
  { rewrite !bind_run, fs_exists_run. cbn [cout emit ret snd].
    erewrite new_events_app.
    2:{ cbn [trace]. rewrite <- !app_assoc. reflexivity. }
    reflexivity. }
  rewrite !bind_run, fs_exists_run. cbn [snd].
  rewrite get_package_version_world.
  rewrite (get_package_version_fs m env w) by reflexivity.
  cbn [cout fst snd fs stdout stderr trace].
  set (url := build_url _ _) in *.
  match goal with
  | |- context [download_file env url ?w0] =>
      destruct (download_file_world env url w0) as (_ & Ht & _);
      set (w3 := snd (download_file env url w0)) in *
  end.
  cbn [trace] in Ht. rewrite <- !app_assoc in Ht. cbn [app] in Ht.
  assert (Hurls : forall w4, extends not_network w3 w4 ->
            requested_urls (new_events w w4)
            = if curl_easy_init_ok env then [url] else []).
  { intros w4 H4. rewrite (requested_urls_extends w w3 w4 _ Ht H4).
    destruct (curl_easy_init_ok env); reflexivity. }
  destruct (fst (download_file env url _)) as [bytes|].
  - apply Hurls. now apply (install_extends m env bytes).
  - rewrite !bind_run. cbn [cerr emit ret snd].
    apply Hurls. eapply extends_one; reflexivity.
Qed.

(** ** The file system under the write calls *)

Lemma lookup_node_insert_ne (f : gmap (list string) node) (loc l : list string)
  (n : node) :
  l <> loc -> lookup_node (<[loc := n]> f) l = lookup_node f l.
Proof.
  intros H. unfold lookup_node. destruct (is_anchor l); [reflexivity|].
  now rewrite lookup_insert_ne.
Qed.

Lemma lookup_node_insert_eq (f : gmap (list string) node) (loc : list string)
  (n : node) :
  is_anchor loc = false -> lookup_node (<[loc := n]> f) loc = Some n.
Proof. intros H. unfold lookup_node. rewrite H. apply lookup_insert_eq. Qed.

Lemma lookup_node_file_not_anchor (f : gmap (list string) node)
  (loc : list string) :
  is_file (lookup_node f loc) = true -> is_anchor loc = false.
Proof. unfold lookup_node. destruct (is_anchor loc); [discriminate | auto]. Qed.

Lemma touches_refl (loc : list string) (f : gmap (list string) node) :
  touches loc f f.
Proof. intros l. auto. Qed.

Lemma touches_trans (loc : list string) (f1 f2 f3 : gmap (list string) node) :
  touches loc f1 f2 -> touches loc f2 f3 -> touches loc f1 f3.
Proof.
  intros H12 H23 l.
  destruct (H12 l) as (A1 & B1 & C1), (H23 l) as (A2 & B2 & C2).
  split; [|split].
  - intros Hne n Hn. apply A2; auto.
  - auto.
  - intros Hf. destruct (C2 Hf) as [->|E2]; [now left|].
    rewrite E2 in Hf |- *. auto.
Qed.

(** Replacing a file, or putting one where there was nothing. *)
Lemma touches_insert_file (f : gmap (list string) node) (loc : list string)
  (mode : Z) (content : list Byte.byte) :
  is_anchor loc = false ->
  touches loc f (<[loc := File mode content]> f).
Proof.
  intros Hna l. destruct (decide (l = loc)) as [->|Hne].
  - rewrite lookup_node_insert_eq by assumption.
    split; [congruence|]. split; [reflexivity | now left].
  - rewrite lookup_node_insert_ne by assumption. auto.
Qed.

Lemma add_dir_lookup (f : gmap (list string) node) (a l : list string) :
  lookup_node (add_dir f a) l = lookup_node f l
  \/ (lookup_node f l = None /\ lookup_node (add_dir f a) l = Some Dir).
Proof.
  unfold add_dir. destruct (lookup_node f a) eqn:Ha; [now left|].
  destruct (decide (l = a)) as [->|Hne].
  - right. split; [exact Ha|]. apply lookup_node_insert_eq.
    unfold lookup_node in Ha. now destruct (is_anchor a).
  - left. now apply lookup_node_insert_ne.
Qed.

Lemma add_dirs_lookup (f : gmap (list string) node) (dirs : list (list string))
  (l : list string) :
  lookup_node (fold_left add_dir dirs f) l = lookup_node f l
  \/ (lookup_node f l = None
      /\ lookup_node (fold_left add_dir dirs f) l = Some Dir).
Proof.
  revert f. induction dirs as [|a dirs IH]; intros f; cbn [fold_left];
    [now left|].
  destruct (IH (add_dir f a)) as [E|[E1 E2]];
    destruct (add_dir_lookup f a l) as [E'|[E1' E2']].
  - left. congruence.
  - right. split; congruence.
  - right. split; congruence.
  - congruence.
Qed.

Lemma touches_add_dirs (loc : list string) (f : gmap (list string) node)
  (dirs : list (list string)) :
  touches loc f (fold_left add_dir dirs f).
Proof.
  intros l. destruct (add_dirs_lookup f dirs l) as [E|[E1 E2]].
  - rewrite E. auto.
  - rewrite E1, E2. split; [discriminate|]. split; discriminate.
Qed.

(** The three write calls of libarchive touch the resolved path only. *)
Lemma archive_write_header_fs (env : Env) (flags : Z) (p : string)
  (e : archive_entry) (w : World) :
  let out := archive_write_header env flags p e w in
  (fst out = ARCHIVE_OK
   /\ is_anchor (resolve p) = false
   /\ fs (snd out)
      = <[resolve p := File (creation_mode env e) []]>
          (fold_left add_dir (ancestors (resolve p)) (fs w)))
  \/ (fst out = ARCHIVE_FAILED /\ fs (snd out) = fs w).
Proof.
  cbn zeta. unfold archive_write_header. rewrite !bind_run.
  cbn [emit get_fs fst snd fs].
  destruct (_ && _); [now right|].
  destruct (fault env _); [now right|].
  destruct (existsb _ _); [now right|].
  assert (Ha : lookup_node (fs w) (resolve p) <> Some Dir ->
               is_anchor (resolve p) = false).
  { unfold lookup_node. destruct (is_anchor (resolve p)); congruence. }
  destruct (lookup_node (fs w) (resolve p)) as [[|? ?]|];
    [now right | left | left];
    rewrite !bind_run; cbn [put_fs ret fst snd fs];
    (split; [reflexivity|]); (split; [now apply Ha | reflexivity]).
Qed.

Lemma archive_write_data_block_fs (env : Env) (p : string) (b : data_block)
  (w : World) :
  let out := archive_write_data_block env p b w in
  (fst out = ARCHIVE_OK
   /\ exists mode content,
        lookup_node (fs w) (resolve p) = Some (File mode content)
        /\ fs (snd out)
           = <[resolve p := File mode (write_at content (Z.to_nat (offset b))
                                                (buff b))]> (fs w))
  \/ (fst out = ARCHIVE_FAILED /\ fs (snd out) = fs w).
Proof.
  cbn zeta. unfold archive_write_data_block. rewrite !bind_run.
  cbn [emit get_fs fst snd fs].
  destruct (fault env _); [now right|].
  destruct (lookup_node (fs w) (resolve p)) as [[|mode content]|] eqn:E;
    [now right | left | now right].
  rewrite !bind_run. cbn [put_fs ret fst snd fs]. eauto.
Qed.

Lemma archive_write_finish_entry_fs (env : Env) (flags : Z) (p : string)
  (e : archive_entry) (w : World) :
  let out := archive_write_finish_entry env flags p e w in
  (fst out = ARCHIVE_OK
   /\ exists mode content,
        lookup_node (fs w) (resolve p) = Some (File mode content)
        /\ fs (snd out)
           = <[resolve p := File (if has_flag flags ARCHIVE_EXTRACT_PERM
                                  then perm e else mode)
                                 content]> (fs w))
  \/ (fst out = ARCHIVE_FAILED /\ fs (snd out) = fs w).
Proof.
  cbn zeta. unfold archive_write_finish_entry. rewrite !bind_run.
  cbn [emit get_fs fst snd fs].
  destruct (fault env _); [now right|].
  destruct (lookup_node (fs w) (resolve p)) as [[|mode content]|] eqn:E;
    [now right | left | now right].
  rewrite !bind_run. cbn [put_fs ret fst snd fs]. eauto.
Qed.

Lemma archive_write_header_touches (env : Env) (flags : Z) (p : string)
  (e : archive_entry) (w : World) :
  touches (resolve p) (fs w) (fs (snd (archive_write_header env flags p e w))).
Proof.
  destruct (archive_write_header_fs env flags p e w) as [(_ & Ha & ->)|(_ & ->)];
    [|apply touches_refl].
  eapply touches_trans; [apply touches_add_dirs|].
  now apply touches_insert_file.
Qed.

Lemma archive_write_data_block_touches (env : Env) (p : string) (b : data_block)
  (w : World) :
  touches (resolve p) (fs w) (fs (snd (archive_write_data_block env p b w))).
Proof.
  destruct (archive_write_data_block_fs env p b w)
    as [(_ & mode & content & Hl & ->)|(_ & ->)]; [|apply touches_refl].
  apply touches_insert_file. apply (lookup_node_file_not_anchor (fs w)).
  now rewrite Hl.
Qed.

Lemma archive_write_finish_entry_touches (env : Env) (flags : Z) (p : string)
  (e : archive_entry) (w : World) :
  touches (resolve p) (fs w)
          (fs (snd (archive_write_finish_entry env flags p e w))).
Proof.
  destruct (archive_write_finish_entry_fs env flags p e w)
    as [(_ & mode & content & Hl & ->)|(_ & ->)]; [|apply touches_refl].
  apply touches_insert_file. apply (lookup_node_file_not_anchor (fs w)).
  now rewrite Hl.
Qed.

(** ** The extraction loop *)

Lemma cerr_fs (s : string) (w : World) : fs (snd (cerr s w)) = fs w.
Proof. reflexivity. Qed.

Lemma copy_data_touches (env : Env) (p : string) (bs : list data_block)
  (e : archive_entry) (w : World) :
  touches (resolve p) (fs w) (fs (snd (copy_data env p bs e w))).
Proof.
  revert w. induction bs as [|b bs IH]; intros w; cbn [copy_data].
  - apply touches_refl.
  - rewrite bind_run.
    pose proof (archive_write_data_block_touches env p b w) as H1.
    destruct (negb _).
    + rewrite bind_run. exact H1.
    + eapply touches_trans; [exact H1 | apply IH].
Qed.

(** The value of [r] after the inner loop: [ARCHIVE_OK] when a write failed,
    what the reader said at the end of the data otherwise. *)
Lemma copy_data_code (env : Env) (p : string) (bs : list data_block)
  (e : archive_entry) (w : World) :
  snd (fst (copy_data env p bs e w)) = ARCHIVE_OK
  \/ snd (fst (copy_data env p bs e w)) = read_code (read_end e).
Proof.
  revert w. induction bs as [|b bs IH]; intros w; cbn [copy_data].
  - now right.
  - rewrite bind_run. destruct (negb _).
    + rewrite bind_run. now left.
    + apply IH.
Qed.

Lemma archive_write_data_block_fault (env : Env) (p : string) (b : data_block)
  (w : World) :
  fault env (EvWriteDataBlock p (offset b) (List.length (buff b))) = true ->
  fst (archive_write_data_block env p b w) = ARCHIVE_FAILED.
Proof.
  intros H. unfold archive_write_data_block. rewrite !bind_run.
  cbn [emit get_fs fst snd]. now rewrite H.
Qed.

Lemma archive_write_finish_entry_fault (env : Env) (flags : Z) (p : string)
  (e : archive_entry) (w : World) :
  fault env (EvWriteFinishEntry p) = true ->
  fst (archive_write_finish_entry env flags p e w) = ARCHIVE_FAILED.
Proof.
  intros H. unfold archive_write_finish_entry. rewrite !bind_run.
  cbn [emit get_fs fst snd]. now rewrite H.
Qed.

Lemma copy_data_fault (env : Env) (p : string) (bs : list data_block)
  (e : archive_entry) (w : World) :
  (exists b, In b bs
     /\ fault env (EvWriteDataBlock p (offset b) (List.length (buff b))) = true) ->
  snd (fst (copy_data env p bs e w)) = ARCHIVE_OK.
Proof.
  revert w. induction bs as [|b0 bs IH]; intros w (b & Hin & Hf);
    [destruct Hin|].
  cbn [copy_data]. rewrite bind_run.
  destruct (Z.eqb_spec (fst (archive_write_data_block env p b0 w)) ARCHIVE_OK)
    as [E|E]; cbn [negb].
  - destruct Hin as [->|Hin].
    + rewrite (archive_write_data_block_fault env p b w Hf) in E. discriminate.
    + apply IH. eauto.
  - rewrite bind_run. reflexivity.
Qed.

(** When every block was written, the file holds the blocks. *)
Lemma copy_data_content (env : Env) (p : string) (bs : list data_block)
  (e : archive_entry) (w : World) (mode : Z) (content : list Byte.byte) :
  lookup_node (fs w) (resolve p) = Some (File mode content) ->
  snd (fst (copy_data env p bs e w)) = ARCHIVE_EOF ->
  lookup_node (fs (snd (copy_data env p bs e w))) (resolve p)
  = Some (File mode (write_blocks bs content)).
Proof.
  revert w content. induction bs as [|b bs IH]; intros w content Hl;
    cbn [copy_data write_blocks fold_left].
  - intros _. exact Hl.
  - rewrite bind_run. destruct (negb _) eqn:Hn.
    + rewrite bind_run. cbn [ret fst snd]. discriminate.
    + destruct (archive_write_data_block_fs env p b w)
        as [(_ & mode' & content' & Hl' & Hfs)|(Hrc & _)].
      * rewrite Hl in Hl'. injection Hl' as <- <-.
        apply IH. rewrite Hfs. apply lookup_node_insert_eq.
        apply (lookup_node_file_not_anchor (fs w)). now rewrite Hl.
      * rewrite Hrc in Hn. discriminate.
Qed.

(** One turn of the loop, apart from the turns after it. *)
Lemma extract_entries_cons (env : Env) (re dest : string) (e : archive_entry)
  (es : list archive_entry) (w : World) :
  extract_entries env re dest (e :: es) w
  = if fst (extract_entries env re dest [e] w)
    then extract_entries env re dest es (snd (extract_entries env re dest [e] w))
    else extract_entries env re dest [e] w.
Proof.
  cbn [extract_entries]. cbn zeta. rewrite !(bind_run (archive_write_header _ _ _ _)).
  destruct (negb _); [rewrite !bind_run; reflexivity|].
  rewrite !(bind_run (copy_data _ _ _ _)).
  destruct (negb _); [rewrite !bind_run; reflexivity|].
  rewrite !(bind_run (archive_write_finish_entry _ _ _ _)).
  destruct (negb _); [rewrite !bind_run; reflexivity|].
  reflexivity.
Qed.


Lemma extract_one_touches (env : Env) (re dest : string) (e : archive_entry)
  (w : World) :
  touches (entry_loc dest e) (fs w)
          (fs (snd (extract_entries env re dest [e] w))).
Proof.
  unfold entry_loc. cbn [extract_entries]. cbn zeta.
  set (p := path_append dest (pathname e)).
  rewrite bind_run.
  pose proof (archive_write_header_touches env extract_flags p e w) as H1.
  destruct (negb _); [rewrite bind_run; exact H1|].
  rewrite bind_run.
  set (w1 := snd (archive_write_header env extract_flags p e w)) in *.
  assert (H2 : touches (resolve p) (fs w) (fs (snd (copy_data env p (blocks e) e w1))))
    by (eapply touches_trans; [exact H1 | apply copy_data_touches]).
  destruct (negb _); [rewrite bind_run; exact H2|].
  rewrite bind_run.
  set (w2 := snd (copy_data env p (blocks e) e w1)) in *.
  assert (H3 : touches (resolve p) (fs w)
                 (fs (snd (archive_write_finish_entry env extract_flags p e w2))))
    by (eapply touches_trans;
        [exact H2 | apply archive_write_finish_entry_touches]).
  destruct (negb _); [rewrite bind_run; exact H3|].
  exact H3.
Qed.

(** An entry that went through is on disk, whole, with its permissions. *)
Lemma extract_one_written (env : Env) (re dest : string) (e : archive_entry)
  (w : World) :
  fst (extract_entries env re dest [e] w) = true ->
  lookup_node (fs (snd (extract_entries env re dest [e] w))) (entry_loc dest e)
  = Some (File (perm e) (entry_content e)).
Proof.
  unfold entry_loc, entry_content. cbn [extract_entries]. cbn zeta.
  set (p := path_append dest (pathname e)).
  rewrite !(bind_run (archive_write_header _ _ _ _)).
  destruct (archive_write_header_fs env extract_flags p e w)
    as [(Hrc & Ha & Hfs)|(Hrc & _)]; rewrite Hrc; cbn [negb Z.eqb ARCHIVE_OK ARCHIVE_FAILED];
    [|rewrite !bind_run; discriminate].
  set (w1 := snd (archive_write_header env extract_flags p e w)) in *.
  assert (Hl1 : lookup_node (fs w1) (resolve p) = Some (File (creation_mode env e) []))
    by (rewrite Hfs; now apply lookup_node_insert_eq).
  rewrite !(bind_run (copy_data _ _ _ _)).
  destruct (Z.eqb_spec (snd (fst (copy_data env p (blocks e) e w1))) ARCHIVE_EOF)
    as [Hc|Hc]; cbn [negb]; [|rewrite !bind_run; discriminate].
  pose proof (copy_data_content env p (blocks e) e w1 _ _ Hl1 Hc) as Hl2.
  set (w2 := snd (copy_data env p (blocks e) e w1)) in *.
  rewrite !(bind_run (archive_write_finish_entry _ _ _ _)).
  destruct (archive_write_finish_entry_fs env extract_flags p e w2)
    as [(Hrc3 & mode & content & Hl3 & Hfs3)|(Hrc3 & _)]; rewrite Hrc3;
    cbn [negb Z.eqb ARCHIVE_OK ARCHIVE_FAILED];
    [|rewrite !bind_run; discriminate].
  intros _. cbn [extract_entries ret snd]. rewrite Hfs3.
  rewrite Hl2 in Hl3. injection Hl3 as <- <-.
  rewrite lookup_node_insert_eq
    by (apply (lookup_node_file_not_anchor (fs w2)); now rewrite Hl2).
  reflexivity.
Qed.

(** The four ways an entry fails. *)
Lemma entry_fails_false (env : Env) (re dest : string) (e : archive_entry)
  (w : World) :
  entry_fails env dest e w ->
  fst (extract_entries env re dest [e] w) = false.
Proof.
  unfold entry_fails. cbn zeta. cbn [extract_entries].
  set (p := path_append dest (pathname e)). intros Hfail.
  rewrite bind_run.
  destruct (Z.eqb_spec (fst (archive_write_header env extract_flags p e w)) ARCHIVE_OK)
    as [Hh|Hh]; cbn [negb]; [|rewrite !bind_run; reflexivity].
  destruct Hfail as [Hf|Hfail]; [contradiction|].
  rewrite bind_run.
  set (w1 := snd (archive_write_header env extract_flags p e w)).
  destruct (Z.eqb_spec (snd (fst (copy_data env p (blocks e) e w1))) ARCHIVE_EOF)
    as [Hc|Hc]; cbn [negb]; [|rewrite !bind_run; reflexivity].
  destruct Hfail as [Hf|[Hf|Hf]].
  - rewrite (copy_data_fault env p (blocks e) e w1 Hf) in Hc. discriminate.
  - destruct (copy_data_code env p (blocks e) e w1) as [E|E];
      rewrite E in Hc; [discriminate|].
    destruct (read_end e); try discriminate. contradiction.
  - rewrite bind_run.
    rewrite (archive_write_finish_entry_fault env extract_flags p e _ Hf).
    cbn [negb Z.eqb ARCHIVE_OK ARCHIVE_FAILED]. rewrite !bind_run. reflexivity.
Qed.





(** A run that fails has a first entry that fails. *)
Lemma extract_entries_failure_split (env : Env) (re dest : string)
  (es : list archive_entry) (w : World) :
  fst (extract_entries env re dest es w) = false ->
  exists pre e post,
    es = pre ++ e :: post
    /\ fst (extract_entries env re dest pre w) = true
    /\ fst (extract_entries env re dest [e]
              (snd (extract_entries env re dest pre w))) = false.
Proof.
  revert w. induction es as [|e es IH]; intros w; [discriminate|].
  rewrite extract_entries_cons.
  destruct (fst (extract_entries env re dest [e] w)) eqn:E.
  - intros Hrest. destruct (IH _ Hrest) as (pre & e' & post & -> & Hpre & He').
    exists (e :: pre), e', post. split; [reflexivity|].
    rewrite extract_entries_cons, E. auto.
  - intros _. exists [], e, es. auto.
Qed.
(** ** Entries that go through *)

(** When no write failed, the file holds the blocks, however the data of
    the entry ended. *)
Lemma copy_data_written (env : Env) (p : string) (bs : list data_block)
  (e : archive_entry) (w : World) (mode : Z) (content : list Byte.byte) :
  lookup_node (fs w) (resolve p) = Some (File mode content) ->
  Forall (fun b => fault env (EvWriteDataBlock p (offset b)
                                (List.length (buff b))) = false) bs ->
  snd (fst (copy_data env p bs e w)) = read_code (read_end e)
  /\ lookup_node (fs (snd (copy_data env p bs e w))) (resolve p)
     = Some (File mode (write_blocks bs content))
  /\ stderr (snd (copy_data env p bs e w)) = stderr w.
Proof.
  intros Hl HF. revert w content Hl.
  induction HF as [|b bs Hb _ IH]; intros w content Hl; cbn [copy_data].
  - cbn. auto.
  - rewrite bind_run.
    assert (Hw : archive_write_data_block env p b w
                 = (ARCHIVE_OK,
                    {| fs := <[resolve p :=
                                 File mode (write_at content (Z.to_nat (offset b))
                                                     (buff b))]> (fs w);
                       stdout := stdout w; stderr := stderr w;
                       trace := trace w ++ [EvWriteDataBlock p (offset b)
                                              (List.length (buff b))] |})).
    { unfold archive_write_data_block. rewrite !bind_run.
      cbn [emit get_fs fst snd fs]. rewrite Hb, Hl. reflexivity. }
    rewrite Hw. cbn [fst snd negb Z.eqb ARCHIVE_OK].
    change (write_blocks (b :: bs) content)
      with (write_blocks bs (write_at content (Z.to_nat (offset b)) (buff b))).
    match goal with
    | |- context [copy_data env p bs e ?w'] =>
        destruct (IH w' (write_at content (Z.to_nat (offset b)) (buff b)))
          as (A & B & C)
    end.
    { cbn [fs]. apply lookup_node_insert_eq.
      apply (lookup_node_file_not_anchor (fs w)). now rewrite Hl. }
    split; [exact A|]. split; [exact B | exact C].
Qed.

Lemma archive_write_header_stderr (env : Env) (flags : Z) (p : string)
  (e : archive_entry) (w : World) :
  stderr (snd (archive_write_header env flags p e w)) = stderr w.
Proof.
  unfold archive_write_header. rewrite !bind_run.
  cbn [emit get_fs fst snd fs].
  destruct (_ && _); [reflexivity|].
  destruct (fault env _); [reflexivity|].
  destruct (existsb _ _); [reflexivity|].
  destruct (lookup_node _ _) as [[|? ?]|]; reflexivity.
Qed.


Lemma archive_write_data_block_stderr (env : Env) (p : string) (b : data_block)
  (w : World) :
  stderr (snd (archive_write_data_block env p b w)) = stderr w.
Proof.
  unfold archive_write_data_block. rewrite !bind_run.
  cbn [emit get_fs fst snd fs].
  destruct (fault env _); [reflexivity|].
  destruct (lookup_node _ _) as [[|? ?]|]; reflexivity.
Qed.

Lemma archive_write_finish_entry_stderr (env : Env) (flags : Z) (p : string)
  (e : archive_entry) (w : World) :
  stderr (snd (archive_write_finish_entry env flags p e w)) = stderr w.
Proof.
  unfold archive_write_finish_entry. rewrite !bind_run.
  cbn [emit get_fs fst snd fs].
  destruct (fault env _); [reflexivity|].
  destruct (lookup_node _ _) as [[|? ?]|]; reflexivity.
Qed.

Lemma archive_write_finish_entry_ok (env : Env) (flags : Z) (p : string)
  (e : archive_entry) (w : World) (mode : Z) (content : list Byte.byte) :
  fault env (EvWriteFinishEntry p) = false ->
  lookup_node (fs w) (resolve p) = Some (File mode content) ->
  fst (archive_write_finish_entry env flags p e w) = ARCHIVE_OK.
Proof.
  intros Hf Hl. unfold archive_write_finish_entry. rewrite !bind_run.
  cbn [emit get_fs fst snd fs]. rewrite Hf, Hl. rewrite !bind_run.
  reflexivity.
Qed.

(** The inner loop is silent unless a write fails. *)
Lemma copy_data_stderr (env : Env) (p : string) (bs : list data_block)
  (e : archive_entry) (w : World) :
  snd (fst (copy_data env p bs e w)) = ARCHIVE_EOF ->
  stderr (snd (copy_data env p bs e w)) = stderr w.
Proof.
  revert w. induction bs as [|b bs IH]; intros w; cbn [copy_data];
    [reflexivity|].
  rewrite bind_run. destruct (negb _).
  - rewrite bind_run. discriminate.
  - intros H. rewrite (IH _ H). apply archive_write_data_block_stderr.
Qed.

(** An entry that does not fail goes through: the converse of
    [entry_fails_false]. *)
Lemma entry_goes_through (env : Env) (re dest : string) (e : archive_entry)
  (w : World) :
  ~ entry_fails env dest e w ->
  fst (extract_entries env re dest [e] w) = true.
Proof.
  unfold entry_fails. cbn zeta.
  set (p := path_append dest (pathname e)). intros Hnot.
  assert (Hh : fst (archive_write_header env extract_flags p e w) = ARCHIVE_OK).
  { destruct (Z.eq_dec (fst (archive_write_header env extract_flags p e w))
                       ARCHIVE_OK) as [E|E]; [exact E|].
    exfalso. apply Hnot. now left. }
  assert (Hb : Forall (fun b => fault env (EvWriteDataBlock p (offset b)
                                   (List.length (buff b))) = false) (blocks e)).
  { apply List.Forall_forall. intros b Hin.
    destruct (fault env (EvWriteDataBlock p (offset b) (List.length (buff b))))
      eqn:E; [|reflexivity].
    exfalso. apply Hnot. right. left. eauto. }
  assert (Hr : read_code (read_end e) = ARCHIVE_EOF).
  { destruct (read_end e) eqn:E; [reflexivity|..];
      exfalso; apply Hnot; right; right; left; discriminate. }
  assert (Hfin : fault env (EvWriteFinishEntry p) = false).
  { destruct (fault env (EvWriteFinishEntry p)) eqn:E; [|reflexivity].
    exfalso. apply Hnot. right. right. now right. }
  cbn [extract_entries]. cbn zeta. fold p.
  rewrite !(bind_run (archive_write_header _ _ _ _)). rewrite Hh.
  cbn [negb Z.eqb ARCHIVE_OK].
  destruct (archive_write_header_fs env extract_flags p e w)
    as [(_ & Ha & Hfs)|(Hrc & _)]; [|rewrite Hrc in Hh; discriminate].
  set (w1 := snd (archive_write_header env extract_flags p e w)) in *.
  assert (Hl1 : lookup_node (fs w1) (resolve p)
                = Some (File (creation_mode env e) []))
    by (rewrite Hfs; now apply lookup_node_insert_eq).
  destruct (copy_data_written env p (blocks e) e w1 _ _ Hl1 Hb)
    as (Hc & Hl2 & _).
  rewrite !(bind_run (copy_data _ _ _ _)). rewrite Hc, Hr.
  rewrite Z.eqb_refl. cbn [negb].
  rewrite !(bind_run (archive_write_finish_entry _ _ _ _)).
  rewrite (archive_write_finish_entry_ok env extract_flags p e _ _ _ Hfin Hl2).
  reflexivity.
Qed.

(** The loop returns true exactly when no entry fails. *)
Lemma extract_entries_goes_through (env : Env) (re dest : string)
  (es : list archive_entry) (w : World) :
  fst (extract_entries env re dest es w) = true
  <-> goes_through env re dest es w.
Proof.
  revert w. induction es as [|e es IH]; intros w; cbn [goes_through].
  - split; [intros _; exact I | reflexivity].
  - rewrite extract_entries_cons.
    destruct (fst (extract_entries env re dest [e] w)) eqn:E.
    + rewrite IH. split; [|tauto]. intros H. split; [|exact H].
      intros Hf. apply (entry_fails_false env re) in Hf. congruence.
    + rewrite E. split; [discriminate|]. intros [Hnot _].
      apply (entry_goes_through env re) in Hnot. congruence.
Qed.

(** An entry that goes through prints nothing on the error stream. *)
Lemma extract_one_stderr (env : Env) (re dest : string) (e : archive_entry)
  (w : World) :
  fst (extract_entries env re dest [e] w) = true ->
  stderr (snd (extract_entries env re dest [e] w)) = stderr w.
Proof.
  cbn [extract_entries]. cbn zeta.
  set (p := path_append dest (pathname e)).
  rewrite !(bind_run (archive_write_header _ _ _ _)).
  destruct (negb _); [rewrite !bind_run; discriminate|].
  set (w1 := snd (archive_write_header env extract_flags p e w)).
  rewrite !(bind_run (copy_data _ _ _ _)).
  destruct (Z.eqb_spec (snd (fst (copy_data env p (blocks e) e w1))) ARCHIVE_EOF)
    as [Hc|Hc]; cbn [negb]; [|rewrite !bind_run; discriminate].
  rewrite !(bind_run (archive_write_finish_entry _ _ _ _)).
  destruct (negb _); [rewrite !bind_run; discriminate|].
  intros _. cbn [ret snd].
  rewrite archive_write_finish_entry_stderr, (copy_data_stderr _ _ _ _ _ Hc).
  apply archive_write_header_stderr.
Qed.

Lemma extract_entries_stderr (env : Env) (re dest : string)
  (es : list archive_entry) (w : World) :
  fst (extract_entries env re dest es w) = true ->
  stderr (snd (extract_entries env re dest es w)) = stderr w.
Proof.
  revert w. induction es as [|e es IH]; intros w; [reflexivity|].
  rewrite extract_entries_cons.
  destruct (fst (extract_entries env re dest [e] w)) eqn:E.
  - intros H. rewrite (IH _ H). now apply extract_one_stderr.
  - rewrite E. discriminate.
Qed.

(** C8. A read error on the header of an entry does not make the
    extraction fail. When [archive_read_next_header] ends the headers with
    an error code instead of [ARCHIVE_EOF] (an archive cut short), the
    [while] of line 212, which only compares with [ARCHIVE_OK], ends as it
    does at the end of a whole archive: [success] is still true. With the
    entries read before the error gone through, [extract_archive] returns
    true and prints nothing on the error stream. *)
Theorem extract_archive_header_read_error (env : Env) (bytes : list Byte.byte)
  (dest : string) (w : World) :
  let a := archive_read env bytes in
  let w0 := snd (emit (EvReadOpenMemory (List.length bytes)) w) in
  archive_new_ok env = true ->
  open_result a = ARCHIVE_OK ->
  headers_end a <> READ_EOF ->
  goes_through env (error_string a) dest (entries a) w0 ->
  let out := extract_archive env bytes dest w in
  fst out = true /\ stderr (snd out) = stderr w.
Proof.
  cbn zeta. intros Hnew Hopen _ Hgo.
  apply extract_entries_goes_through in Hgo.
  unfold extract_archive. rewrite Hnew. cbn [negb]. rewrite bind_run.
  rewrite Hopen. cbn [negb Z.eqb ARCHIVE_OK].
  split; [exact Hgo|].
  now rewrite (extract_entries_stderr _ _ _ _ _ Hgo).
Qed.


(** ** Paths *)

Lemma split_path_nonempty (p : string) : split_path p <> [].
Proof.
  induction p as [|c p IH]; cbn [split_path]; [discriminate|].
  destruct (Ascii.eqb c slash); [discriminate|].
  destruct (split_path p); [contradiction | discriminate].
Qed.

Lemma split_path_append (a b : string) :
  split_path (a +:+ String slash b) = split_path a ++ split_path b.
Proof.
  induction a as [|c a IH]; cbn [String.append split_path].
  - rewrite Ascii.eqb_refl. reflexivity.
  - destruct (Ascii.eqb c slash); [now rewrite IH|].
    rewrite IH. pose proof (split_path_nonempty a).
    destruct (split_path a); [contradiction | reflexivity].
Qed.

(** No element of a path holds a separator. *)
Lemma split_path_no_slash (p c : string) :
  In c (split_path p) -> index_char slash c = None.
Proof.
  revert c. induction p as [|x p IH]; intros c; cbn [split_path].
  - intros [<-|[]]. reflexivity.
  - destruct (Ascii.eqb x slash) eqn:Ex.
    + intros [<-|Hin]; [reflexivity | now apply IH].
    + pose proof (split_path_nonempty p).
      destruct (split_path p) as [|y ys]; [contradiction|].
      intros [<-|Hin].
      * cbn [index_char]. rewrite Ex. rewrite (IH y) by now left. reflexivity.
      * apply IH. now right.
Qed.

Lemma ends_with_slash_append (p : string) :
  ends_with_slash p = true -> exists d, p = d +:+ String slash EmptyString.
Proof.
  induction p as [|c p IH]; [discriminate|].
  destruct p as [|c' p'].
  - cbn. intros H. apply Ascii.eqb_eq in H as ->. now exists EmptyString.
  - intros H. destruct (IH H) as [d Hd]. exists (String c d).
    cbn [String.append]. now rewrite <- Hd.
Qed.

Lemma is_absolute_append (a b : string) :
  a <> EmptyString -> is_absolute (a +:+ b) = is_absolute a.
Proof. destruct a; [contradiction | reflexivity]. Qed.

(** The stack of [resolve] after the left operand, then the elements of a
    relative right operand. *)
Lemma resolve_path_append (dest p : string) :
  is_absolute p = false ->
  resolve (path_append dest p)
  = rev (fold_left push_component (split_path p) (rev (resolve dest))).
Proof.
  intros Hrel. unfold path_append. rewrite Hrel. unfold resolve.
  rewrite rev_involutive. unfold has_filename.
  destruct dest as [|c dest'].
  - cbn [Platform.empty negb andb String.append]. rewrite Hrel. reflexivity.
  - cbn [Platform.empty negb andb].
    assert (Hne : String c dest' <> EmptyString) by discriminate.
    revert Hne. generalize (String c dest'). intros dest Hne.
    destruct (ends_with_slash dest) eqn:Hs; cbn [negb].
    + destruct (ends_with_slash_append dest Hs) as [d Hd].
      rewrite is_absolute_append by assumption.
      rewrite Hd at 1 3. rewrite append_assoc. cbn [String.append].
      rewrite !split_path_append, !fold_left_app. reflexivity.
    + rewrite is_absolute_append by assumption.
      change (dest +:+ "/" +:+ p) with (dest +:+ String slash p).
      rewrite split_path_append, fold_left_app. reflexivity.
Qed.

(** Elements that are not [..] only add to the stack. *)
Lemma push_components_no_dotdot (cs stack : list string) :
  existsb (String.eqb "..") cs = false ->
  exists names,
    fold_left push_component cs stack = rev names ++ stack
    /\ Forall (fun c => In c cs /\ c <> "..") names.
Proof.
  revert stack. induction cs as [|c cs IH]; intros stack Hno.
  - exists []. auto.
  - cbn [existsb] in Hno. apply orb_false_elim in Hno as [Hc Hno].
    rewrite String.eqb_sym in Hc.
    cbn [fold_left]. unfold push_component at 2. rewrite Hc.
    destruct (String.eqb c EmptyString || String.eqb c ".").
    + destruct (IH stack Hno) as (names & E & HF). exists names.
      split; [exact E|]. eapply Forall_impl; [exact HF|].
      cbn. intros x [Hin Hx]. auto.
    + destruct (IH (c :: stack) Hno) as (names & E & HF). exists (c :: names).
      split.
      * rewrite E. cbn [rev]. now rewrite <- app_assoc.
      * constructor.
        -- split; [now left|]. apply String.eqb_neq. exact Hc.
        -- eapply Forall_impl; [exact HF|]. cbn. intros x [Hin Hx]. auto.
Qed.

Lemma inside_app (d names : list string) :
  Forall (fun c => c <> ".." /\ c <> "/") names ->
  inside d (d ++ names) = true.
Proof.
  intros HF. induction d as [|x d IH]; cbn [app inside].
  - destruct HF as [|c names [H1 H2] _]; [reflexivity|].
    apply String.eqb_neq in H1, H2. now rewrite H1, H2.
  - now rewrite String.eqb_refl, IH.
Qed.

(** A safe stored path, joined to [dest], stays inside [dest]. *)
Lemma safe_path_inside (dest p : string) :
  safe_path p = true ->
  inside (resolve dest) (resolve (path_append dest p)) = true.
Proof.
  unfold safe_path, has_dotdot. intros H.
  apply andb_true_iff in H as [Hrel Hdd].
  apply negb_true_iff in Hrel, Hdd.
  rewrite (resolve_path_append dest p Hrel).
  destruct (push_components_no_dotdot (split_path p) (rev (resolve dest)) Hdd)
    as (names & -> & HF).
  rewrite rev_app_distr, !rev_involutive.
  apply inside_app. eapply Forall_impl; [exact HF|].
  cbn. intros c [Hin Hc]. split; [exact Hc|].
  intros ->. pose proof (split_path_no_slash p "/" Hin). discriminate.
Qed.

(** ** Where the extraction writes *)

Lemma confined_refl (d : list string) (f : gmap (list string) node) :
  confined d f f.
Proof. intros l _. now left. Qed.

Lemma confined_trans (d : list string) (f1 f2 f3 : gmap (list string) node) :
  confined d f1 f2 -> confined d f2 f3 -> confined d f1 f3.
Proof.
  intros H12 H23 l Hf. destruct (H23 l Hf) as [E|Hin]; [|now right].
  rewrite E in Hf |- *. now apply H12.
Qed.

Lemma touches_confined (d loc : list string) (f f' : gmap (list string) node) :
  inside d loc = true -> touches loc f f' -> confined d f f'.
Proof.
  intros Hin Ht l Hf. destruct (Ht l) as (_ & _ & C).
  destruct (C Hf) as [->|E]; auto.
Qed.

Lemma extract_entries_confined (env : Env) (re dest : string)
  (es : list archive_entry) (w : World) :
  Forall (fun e => safe_path (pathname e) = true) es ->
  confined (resolve dest) (fs w)
           (fs (snd (extract_entries env re dest es w))).
Proof.
  intros HF. revert w. induction HF as [|e es He _ IH]; intros w;
    [apply confined_refl|].
  assert (H1 : confined (resolve dest) (fs w)
                 (fs (snd (extract_entries env re dest [e] w)))).
  { eapply touches_confined; [|apply extract_one_touches].
    now apply safe_path_inside. }
  rewrite extract_entries_cons.
  destruct (fst (extract_entries env re dest [e] w)); [|exact H1].
  eapply confined_trans; [exact H1 | apply IH].
Qed.

(** C1, as the code has it. [extract_archive] checks no path: an entry
    that goes through is on disk where the destination joined with its
    stored path resolves, whatever that path is. When every stored path of
    the archive is relative and has no [..] element, every regular file that
    the extraction creates or changes lies inside the destination directory.
    (Entries are regular files, and paths resolve lexically.) *)
Theorem extract_archive_confined (env : Env) (bytes : list Byte.byte)
  (dest : string) (w : World) :
  (forall e w',
     let out := extract_entries env (error_string (archive_read env bytes))
                                dest [e] w' in
     fst out = true ->
     lookup_node (fs (snd out)) (resolve (path_append dest (pathname e)))
     = Some (File (perm e) (entry_content e)))
  /\ (Forall (fun e => safe_path (pathname e) = true)
             (entries (archive_read env bytes)) ->
      confined (resolve dest) (fs w)
               (fs (snd (extract_archive env bytes dest w)))).
Proof.
  split.
  - intros e w'. cbn zeta. apply extract_one_written.
  - intros HF. unfold extract_archive. destruct (negb (archive_new_ok env)).
    { rewrite bind_run. apply confined_refl. }
    rewrite bind_run. cbn [emit fst snd].
    destruct (negb _).
    + rewrite bind_run. apply confined_refl.
    + eapply confined_trans; [|now apply extract_entries_confined].
      apply confined_refl.
Qed.

(** C1, as the specification states it, fails: the entry [../../escape]
    is neither rejected nor sanitized. Extracted into [/pkg/bin], it makes
    the extraction succeed and leaves a new regular file at [/escape],
    outside the destination directory. *)
Lemma extract_archive_escapes :
  let out := extract_archive env_escape [] "/pkg/bin" world_bin in
  entries (archive_read env_escape []) = [entry_escape]
  /\ pathname entry_escape = "../../escape"
  /\ fst out = true
  /\ lookup_node (fs world_bin) ["/"; "escape"] = None
  /\ lookup_node (fs (snd out)) ["/"; "escape"]
     = Some (File 420 (list_byte_of_string "pwn"))
  /\ inside (resolve "/pkg/bin") ["/"; "escape"] = false
  /\ ~ confined (resolve "/pkg/bin") (fs world_bin) (fs (snd out)).
Proof.
  cbn zeta.
  assert (H1 : lookup_node (fs world_bin) ["/"; "escape"] = None)
    by (vm_compute; reflexivity).
  assert (H2 : lookup_node
                 (fs (snd (extract_archive env_escape [] "/pkg/bin" world_bin)))
                 ["/"; "escape"]
               = Some (File 420 (list_byte_of_string "pwn")))
    by (vm_compute; reflexivity).
  assert (H3 : inside (resolve "/pkg/bin") ["/"; "escape"] = false)
    by (vm_compute; reflexivity).
  repeat split; try assumption; try (vm_compute; reflexivity).
  intros Hc. specialize (Hc ["/"; "escape"]).
  rewrite H2, H1, H3 in Hc. destruct (Hc eq_refl); discriminate.
Qed.

(** ** The theorems at work on the sample worlds *)

(** An archive with the single entry [claudev], extracted into the bin
    directory, writes inside it only. *)
Lemma extract_archive_confined_sample :
  confined (resolve "/pkg/bin") (fs world_bin)
           (fs (snd (extract_archive env_ok [] "/pkg/bin" world_bin))).
Proof.
  apply (proj2 (extract_archive_confined env_ok [] "/pkg/bin" world_bin)).
  repeat constructor.
Defined.


(** A 404 for the archive: exit code 0, the file system untouched. *)
Lemma main_download_failure_sample :
  fst (main linux_x64 env_404 world_fresh) = 0
  /\ fs (snd (main linux_x64 env_404 world_fresh)) = fs world_fresh
  /\ Forall (fun e => is_fs_write e = false)
            (new_events world_fresh (snd (main linux_x64 env_404 world_fresh))).
Proof.
  assert (Hsup : Platform.is_supported (Platform.detect linux_x64) = true)
    by reflexivity.
  assert (Hnex : fst (fs_exists (binary_path linux_x64) world_fresh) = false)
    by (vm_compute; reflexivity).
  assert (Hfail : curl_easy_init_ok env_404 = false
                  \/ res (curl_easy_perform env_404
                            (request (build_url
                               (fst (get_package_version linux_x64 env_404 world_fresh))
                               (Platform.detect linux_x64)))) <> CURLE_OK
                  \/ response_code (curl_easy_perform env_404
                            (request (build_url
                               (fst (get_package_version linux_x64 env_404 world_fresh))
                               (Platform.detect linux_x64)))) <> 200).
  { right. right. vm_compute. discriminate. }
  destruct (main_download_failure linux_x64 env_404 world_fresh Hsup Hnex Hfail)
    as (H0 & _ & Hfs & Hev).
  repeat split; assumption.
Defined.

(** A regular file where the bin directory should be: exit code 1, and no
    call of the extraction. *)
Lemma main_mkdir_failure_sample :
  fst (main linux_x64 env_ok world_blocked) = 1
  /\ Forall (fun e => is_extraction e = false)
            (new_events world_blocked (snd (main linux_x64 env_ok world_blocked))).
Proof.
  assert (Hsup : Platform.is_supported (Platform.detect linux_x64) = true)
    by reflexivity.
  assert (Hnex : fst (fs_exists (binary_path linux_x64) world_blocked) = false)
    by (vm_compute; reflexivity).
  assert (Hec : fst (create_directories env_ok (bin_dir linux_x64) world_blocked)
                <> 0)
    by (vm_compute; discriminate).
  destruct (main_mkdir_failure linux_x64 env_ok world_blocked Hsup Hnex
              eq_refl eq_refl eq_refl Hec) as (H1 & _ & Hev).
  split; assumption.
Defined.

(** A 404 with a body: no buffer, and the status on the error stream. *)
Lemma download_file_non_2xx_sample :
  fst (download_file env_404 "https://example.org/a.tar.gz" world_fresh) = None
  /\ stderr (snd (download_file env_404 "https://example.org/a.tar.gz" world_fresh))
     = nl +:+ "HTTP 404" +:+ nl.
Proof.
  destruct (download_file_non_2xx env_404 "https://example.org/a.tar.gz" world_fresh)
    as (H & _ & _).
  assert (Hcode : ~ (200 <= response_code
                              (curl_easy_perform env_404
                                 (request "https://example.org/a.tar.gz")) < 300))
    by (vm_compute; intros [_ Hlt]; discriminate Hlt).
  destruct (H eq_refl Hcode) as [Hnone Herr].
  split; [exact Hnone | exact Herr].
Defined.

(** Status 204 and status 206, each with a body: no buffer. *)
Lemma download_file_only_200_sample :
  fst (download_file env_204 "https://example.org/a.tar.gz" world_fresh) = None
  /\ fst (download_file env_206 "https://example.org/a.tar.gz" world_fresh) = None.
Proof.
  split.
  - apply (download_file_only_200 env_204 "https://example.org/a.tar.gz" world_fresh).
    vm_compute. discriminate.
  - apply (download_file_only_200 env_206 "https://example.org/a.tar.gz" world_fresh).
    vm_compute. discriminate.
Defined.

(** An archive cut short after the binary: the extraction reports
    success. *)
Lemma extract_archive_header_read_error_sample :
  headers_end (archive_read env_truncated []) = READ_FATAL
  /\ fst (extract_archive env_truncated [] "/pkg/bin" world_bin) = true
  /\ stderr (snd (extract_archive env_truncated [] "/pkg/bin" world_bin))
     = EmptyString.
Proof.
  split; [reflexivity|].
  apply (extract_archive_header_read_error env_truncated [] "/pkg/bin" world_bin).
  - reflexivity.
  - reflexivity.
  - discriminate.
  - apply extract_entries_goes_through. vm_compute. reflexivity.
Defined.


(** The file of the fresh package is [{], the version line and [}], each
    ended by a newline: the version is read from the second line. *)
Lemma get_package_version_own_line_sample :
  fst (get_package_version linux_x64 env_ok world_fresh) = "1.2.3".
Proof.
  destruct (get_package_version_own_line linux_x64 env_ok world_fresh)
    as (_ & _ & _ & H).
  assert (Hlook : lookup_node (fs world_fresh) (resolve (package_json linux_x64))
                  = Some (File 420 (list_byte_of_string
                                      (unlines ["{"; version_line; "}"]
                                         +:+ EmptyString))))
    by (vm_compute; reflexivity).
  destruct (H 420 ["{"; version_line; "}"] EmptyString eq_refl Hlook)
    as [_ Hfirst].
  - repeat constructor.
  - reflexivity.
  - repeat constructor; vm_compute; reflexivity.
  - apply (Hfirst ["{"] version_line ["}"] "  " " " "1.2.3" ",").
    + reflexivity.
    + repeat constructor. apply index_str_None. reflexivity.
    + reflexivity.
    + reflexivity.
    + reflexivity.
    + reflexivity.
Defined.

(** The same package with [package.json] on one line, version 1.2.3: the
    value read is the name of the package. *)
Lemma get_package_version_one_line_sample :
  string_of_list_byte
    (match lookup_node (fs world_one_line) (resolve (package_json linux_x64)) with
     | Some (File _ content) => content
     | _ => []
     end)
  = one_line "claudev" "1.2.3" +:+ nl
  /\ fst (get_package_version linux_x64 env_ok world_one_line) = "claudev".
Proof.
  split; [vm_compute; reflexivity|].
  apply (get_package_version_one_line linux_x64 env_ok world_one_line 420
           "claudev" "1.2.3" true).
  - reflexivity.
  - vm_compute. reflexivity.
  - vm_compute. reflexivity.
  - reflexivity.
  - reflexivity.
  - reflexivity.
Defined.

(** ** Sample runs *)

(** A first run on the fresh package: the archive is asked for under the
    version of [package.json], the binary is written with its content and
    made executable, and [main] returns 0. *)
Example main_fresh_install :
  let out := main linux_x64 env_ok world_fresh in
  fst out = 0
  /\ requested_urls (trace (snd out))
     = ["https://github.com/openSVM/vibedev/releases/download/v1.2.3/claudev-x86_64-unknown-linux-gnu.tar.gz"]
  /\ lookup_node (fs (snd out)) ["/"; "pkg"; "bin"; "claudev"]
     = Some (File 493 (list_byte_of_string "ELFcode"))
  /\ stderr (snd out) = EmptyString.
Proof. vm_compute. repeat split; reflexivity. Qed.

(** The same archive with the escaping entry, through [main]: exit code 0
    and a file above the package. *)
Example main_escaping_entry :
  let out := main linux_x64 env_escape world_fresh in
  fst out = 0
  /\ lookup_node (fs (snd out)) ["/"; "escape"]
     = Some (File 420 (list_byte_of_string "pwn")).
Proof. vm_compute. split; reflexivity. Qed.

(** On a line with an earlier field, lines 282-284 take the first quoted
    text after the first colon of the line. *)
Example scan_lines_one_line_json :
  scan_lines [one_line_json] = "claudev".
Proof. vm_compute. reflexivity. Qed.

(** A line with the key and no colon yields the text before its first
    quote: [start] wraps around to 0. *)
Example scan_lines_no_colon :
  scan_lines ["  " +:+ quoted "version" +:+ " 1.2.3"] = "  ".
Proof. vm_compute. reflexivity. Qed.

(** An archive cut short after the binary, through [main]: the run ends
    with the success message and exit code 0, nothing on the error stream. *)
Example main_truncated_archive :
  let out := main linux_x64 env_truncated world_fresh in
  fst out = 0
  /\ stdout (snd out)
     = "claudev: Installing binary..." +:+ nl
       +:+ "claudev: Downloading for linux-x64" +:+ nl
       +:+ " - done" +:+ nl
       +:+ "claudev: Installed successfully!" +:+ nl
  /\ stderr (snd out) = EmptyString.
Proof. vm_compute. repeat split; reflexivity. Qed.

(** The one-line [package.json] through [main]: the archive is asked for
    under the name of the package, not under its version. *)
Example main_one_line_json :
  requested_urls (trace (snd (main linux_x64 env_ok world_one_line)))
  = ["https://github.com/openSVM/vibedev/releases/download/vclaudev/claudev-x86_64-unknown-linux-gnu.tar.gz"].
Proof. vm_compute. reflexivity. Qed.

(** * Further properties *)

(** ** The write callback *)

(** X1. Fed the chunks of a transfer in turn, the write callback leaves in
    the buffer what it held followed by the chunks in order, and keeps the
    progress counter at the number of whole megabytes received. *)
Theorem receive_progress (cs : list (list Byte.byte)) (b : DownloadBuffer)
  (w : World) :
  progress_ok b ->
  data (fst (receive cs b w)) = data b ++ concat cs
  /\ progress_ok (fst (receive cs b w)).
Proof.
  revert b w. induction cs as [|c cs IH]; intros b w Hb; cbn [receive concat].
  - rewrite app_nil_r. auto.
  - rewrite bind_run.
    assert (Hstep : data (snd (fst (write_callback c b w))) = data b ++ c
                    /\ progress_ok (snd (fst (write_callback c b w)))).
    { unfold write_callback, progress_ok in *.
      assert (Hmono : Z.of_nat (List.length (data b)) / (1024 * 1024)
                      <= Z.of_nat (List.length (data b ++ c)) / (1024 * 1024)).
      { apply Z.div_le_mono; [lia|]. rewrite length_app. lia. }
      destruct (Z.ltb_spec (last_reported_mb b)
                  (Z.of_nat (List.length (data b ++ c)) / (1024 * 1024)));
        [rewrite bind_run|]; cbn [ret fst snd data last_reported_mb];
        split; try reflexivity; lia. }
    destruct Hstep as [Hd Hp].
    destruct (IH (snd (fst (write_callback c b w)))
                 (snd (write_callback c b w)) Hp) as [Hd' Hp'].
    split; [|exact Hp'].
    rewrite Hd', Hd. now rewrite app_assoc.
Qed.

Lemma receive_progress_sample :
  data (fst (receive [list_byte_of_string "ab"; list_byte_of_string "cd"]
                     empty_buffer world_fresh))
  = list_byte_of_string "abcd".
Proof.
  destruct (receive_progress
              [list_byte_of_string "ab"; list_byte_of_string "cd"]
              empty_buffer world_fresh) as [H _].
  - reflexivity.
  - exact H.
Defined.

(** Below one megabyte the callback prints nothing. *)
Lemma receive_quiet (cs : list (list Byte.byte)) (b : DownloadBuffer)
  (w : World) :
  progress_ok b ->
  Z.of_nat (List.length (data b ++ concat cs)) < 1024 * 1024 ->
  stdout (snd (receive cs b w)) = stdout w.
Proof.
  revert b w. induction cs as [|c cs IH]; intros b w Hb Hlt;
    cbn [receive concat] in *; [reflexivity|].
  rewrite bind_run.
  assert (Hc : Z.of_nat (List.length (data b ++ c)) < 1024 * 1024).
  { rewrite app_assoc, length_app in Hlt. lia. }
  assert (H0 : Z.of_nat (List.length (data b ++ c)) / (1024 * 1024) = 0)
    by (apply Z.div_small; lia).
  assert (Hl : last_reported_mb b = 0).
  { unfold progress_ok in Hb. rewrite Hb. apply Z.div_small.
    rewrite length_app in Hc. lia. }
  assert (Hstep : write_callback c b w
                  = (Z.of_nat (List.length c),
                     {| data := data b ++ c; last_reported_mb := 0 |}, w)).
  { unfold write_callback. rewrite H0, Hl. reflexivity. }
  rewrite Hstep. cbn [fst snd]. apply IH.
  - unfold progress_ok. cbn [data last_reported_mb]. now rewrite H0.
  - cbn [data]. now rewrite <- app_assoc.
Qed.

(** X2. A transfer that succeeds with status 200 and a body of less than
    one megabyte returns the body, prints [ - done] and a newline on the
    output stream and nothing else, writes nothing on the error stream and
    leaves the file system as it was. *)
Theorem download_file_small_body (env : Env) (url : string) (w : World) :
  let r := curl_easy_perform env (request url) in
  let out := download_file env url w in
  curl_easy_init_ok env = true ->
  res r = CURLE_OK ->
  response_code r = 200 ->
  Z.of_nat (List.length (concat (chunks r))) < 1024 * 1024 ->
  fst out = Some (concat (chunks r))
  /\ stdout (snd out) = stdout w +:+ " - done" +:+ nl
  /\ stderr (snd out) = stderr w
  /\ fs (snd out) = fs w.
Proof.
  cbn zeta. intros Hinit Hres Hcode Hsmall.
  pose proof (download_file_result env url w) as Hr.
  pose proof (download_file_world env url w) as (Hf & _ & He).
  cbn zeta in Hr, He. rewrite Hinit, Hres, Hcode, !Z.eqb_refl in Hr, He.
  cbn [negb andb] in Hr, He. rewrite append_empty_r in He.
  split; [exact Hr|]. split; [|split; [exact He | exact Hf]].
  unfold download_file. rewrite Hinit. cbn [negb].
  rewrite !bind_run. cbn [emit fst snd]. rewrite Hres, Hcode, !Z.eqb_refl.
  cbn [negb]. rewrite !bind_run. cbn [cout ret fst snd stdout].
  rewrite receive_quiet; [reflexivity | reflexivity | exact Hsmall].
Qed.

Lemma download_file_small_body_sample :
  fst (download_file env_ok "https://example.org/a.tar.gz" world_fresh)
  = Some (list_byte_of_string "archive bytes")
  /\ stdout (snd (download_file env_ok "https://example.org/a.tar.gz" world_fresh))
     = " - done" +:+ nl.
Proof.
  destruct (download_file_small_body env_ok "https://example.org/a.tar.gz"
              world_fresh eq_refl eq_refl eq_refl) as (H1 & H2 & _).
  - vm_compute. reflexivity.
  - split; [exact H1 | exact H2].
Defined.

(** ** Edge cases of the version reader *)

Lemma take_drop_str (n : nat) (s : string) :
  s = take_str n s +:+ drop_str n s.
Proof.
  revert s. induction n as [|n IH]; intros [|c s]; cbn; auto.
  now rewrite <- IH.
Qed.

Lemma take_str_all (s : string) : take_str (String.length s) s = s.
Proof.
  rewrite <- (append_empty_r s) at 2. apply take_str_append.
Qed.

(** X3. Lines 282-284 never throw: on every line the [substr] is in range,
    and what it returns is a piece of the line. *)
Theorem version_of_line_total (line : string) :
  exists v, version_of_line line = Some v /\ contains v line.
Proof.
  destruct (substr_in_range line) as [v Hv]. exists v. split; [exact Hv|].
  unfold version_of_line, substr in Hv.
  destruct (_ <? _); [discriminate|]. injection Hv as <-.
  match goal with
  | |- contains (take_str ?n (drop_str ?k line)) _ =>
      exists (take_str k line), (drop_str n (drop_str k line));
      rewrite <- take_drop_str; apply take_drop_str
  end.
Qed.

(** X4. On a line without a colon the first [find] gives [npos], the second
    one too, and [+ 1] wraps around to 0: the value is the text before the
    first quote of the line. *)
Theorem version_of_line_no_colon (line a b : string) :
  fits line ->
  line = a +:+ String dquote b ->
  index_char dquote a = None ->
  index_char colon line = None ->
  version_of_line line = Some a.
Proof.
  intros Hfits Hline Ha Hcolon. unfold version_of_line. unfold fits in Hfits.
  pose proof (size_nonneg line) as Hn. pose proof (size_nonneg a) as Hna.
  assert (Hsl : size line = size a + 1 + size b)
    by (rewrite Hline, size_append, size_String; lia).
  pose proof (size_nonneg b) as Hnb.
  assert (H1 : find_char line colon 0 = npos).
  { unfold find_char. destruct (size line <=? 0); [reflexivity|].
    change (drop_str (Z.to_nat 0) line) with line. now rewrite Hcolon. }
  rewrite H1.
  assert (H2 : find_char line dquote npos = npos).
  { unfold find_char. destruct (Z.leb_spec (size line) npos); [reflexivity | lia]. }
  rewrite H2. change (size_t (npos + 1)) with 0.
  assert (H3 : find_char line dquote 0 = size a).
  { rewrite Hline. apply (find_char_append a b dquote 0); [lia | exact Ha]. }
  rewrite H3, Z.sub_0_r, size_t_small by lia.
  unfold substr. destruct (Z.ltb_spec (size line) 0); [lia|].
  f_equal. rewrite Z.min_l by lia.
  change (drop_str (Z.to_nat 0) line) with line.
  replace (Z.to_nat (size a)) with (String.length a) by (unfold size; lia).
  rewrite Hline. apply take_str_append.
Qed.

Lemma version_of_line_no_colon_sample :
  version_of_line ("  " +:+ quoted "version" +:+ " 1.2.3") = Some "  ".
Proof.
  apply (version_of_line_no_colon _ "  " ("version" +:+ String dquote " 1.2.3"));
    reflexivity.
Defined.

(** X5. When the value has no closing quote, [end] is [npos] and [substr]
    clamps the count: the value is the rest of the line after the opening
    quote. *)
Theorem version_of_line_unterminated (line pre mid val : string) :
  fits line ->
  line = pre +:+ String colon (mid +:+ String dquote val) ->
  index_char colon pre = None ->
  index_char dquote mid = None ->
  index_char dquote val = None ->
  version_of_line line = Some val.
Proof.
  intros Hfits Hline Hpre Hmid Hval. unfold version_of_line.
  set (a := pre +:+ String colon mid).
  assert (Ha : line = a +:+ String dquote val).
  { subst a line. rewrite append_assoc. reflexivity. }
  assert (Hsa : size a = size pre + 1 + size mid).
  { subst a. rewrite size_append, size_String. lia. }
  assert (Hsl : size line = size a + 1 + size val).
  { rewrite Ha. rewrite size_append, size_String. lia. }
  pose proof (size_nonneg pre) as Hn1. pose proof (size_nonneg mid) as Hn2.
  pose proof (size_nonneg val) as Hn3.
  unfold fits in Hfits.
  assert (H1 : find_char line colon 0 = size pre).
  { rewrite Hline. apply (find_char_append pre _ colon 0); [lia | exact Hpre]. }
  rewrite H1.
  assert (H2 : find_char line dquote (size pre) = size a).
  { rewrite Ha. unfold size at 1.
    apply (find_char_append a _ dquote (String.length pre)).
    - subst a. rewrite length_append. lia.
    - subst a. rewrite drop_str_append. cbn. now rewrite Hmid. }
  rewrite H2, (size_t_small (size a + 1)) by lia.
  assert (Hdrop : drop_str (Z.to_nat (size a + 1)) line = val).
  { replace (Z.to_nat (size a + 1))
      with (String.length (a +:+ String dquote EmptyString))
      by (rewrite length_append; unfold size; cbn; lia).
    rewrite Ha.
    replace (a +:+ String dquote val)
      with ((a +:+ String dquote EmptyString) +:+ val)
      by (rewrite append_assoc; reflexivity).
    apply drop_str_append. }
  assert (H3 : find_char line dquote (size a + 1) = npos).
  { unfold find_char. destruct (size line <=? size a + 1); [reflexivity|].
    now rewrite Hdrop, Hval. }
  rewrite H3, (size_t_small (npos - (size a + 1))) by (unfold npos in *; lia).
  unfold substr. destruct (Z.ltb_spec (size line) (size a + 1)); [lia|].
  f_equal. rewrite Hdrop, Z.min_r by lia.
  replace (Z.to_nat (size line - (size a + 1))) with (String.length val)
    by (unfold size in *; lia).
  apply take_str_all.
Qed.

Lemma version_of_line_unterminated_sample :
  version_of_line ("  " +:+ quoted "version" +:+ ": " +:+ String dquote "1.2.3")
  = Some "1.2.3".
Proof.
  apply (version_of_line_unterminated _ ("  " +:+ quoted "version") " " "1.2.3");
    reflexivity.
Defined.

(** ** The run of main, branch by branch *)

Lemma main_unsupported_run (m : Macros) (env : Env) (w : World) :
  Platform.is_supported (Platform.detect m) = false ->
  let out := main m env w in
  fst out = 0
  /\ stderr (snd out)
     = stderr w +:+ "Unsupported platform: " +:+ Platform.os (Platform.detect m)
         +:+ "-" +:+ Platform.arch (Platform.detect m) +:+ nl
         +:+ "Build from source: cargo install claudev" +:+ nl
  /\ fs (snd out) = fs w
  /\ new_events w (snd out) = [EvCurlGlobalInit; EvCurlGlobalCleanup].
Proof.
  intros Hsup. cbn zeta. unfold main. rewrite !bind_run.
  cbn [cout emit fst snd]. rewrite Hsup. cbn [negb].
  rewrite !bind_run. cbn [cerr emit ret fst snd fs stderr trace].
  split; [reflexivity|]. split; [|split; [reflexivity|]].
  - rewrite !append_assoc. reflexivity.
  - apply new_events_app. cbn [trace]. now rewrite <- !app_assoc.
Qed.

(** X6. On a target without a release, [main] names the platform and the
    manual build on the error stream and returns 0; it makes no call but the
    global init and cleanup of libcurl, so it neither looks at the file
    system nor touches the network, and the output stream holds the first
    line only. *)
Theorem main_unsupported (m : Macros) (env : Env) (w : World) :
  Platform.is_supported (Platform.detect m) = false ->
  let out := main m env w in
  fst out = 0
  /\ stderr (snd out)
     = stderr w +:+ "Unsupported platform: " +:+ Platform.os (Platform.detect m)
         +:+ "-" +:+ Platform.arch (Platform.detect m) +:+ nl
         +:+ "Build from source: cargo install claudev" +:+ nl
  /\ stdout (snd out) = stdout w +:+ "claudev: Installing binary..." +:+ nl
  /\ fs (snd out) = fs w
  /\ new_events w (snd out) = [EvCurlGlobalInit; EvCurlGlobalCleanup].
Proof.
  intros Hsup. cbn zeta.
  destruct (main_unsupported_run m env w Hsup) as (H0 & He & Hf & Ht).
  split; [exact H0|]. split; [exact He|]. split; [|auto].
  unfold main. rewrite !bind_run. cbn [cout emit fst snd]. rewrite Hsup.
  cbn [negb]. rewrite !bind_run. reflexivity.
Qed.

Lemma main_unsupported_sample :
  fst (main linux_arm64 env_ok world_fresh) = 0
  /\ stderr (snd (main linux_arm64 env_ok world_fresh))
     = "Unsupported platform: linux-arm64" +:+ nl
         +:+ "Build from source: cargo install claudev" +:+ nl
  /\ new_events world_fresh (snd (main linux_arm64 env_ok world_fresh))
     = [EvCurlGlobalInit; EvCurlGlobalCleanup].
Proof.
  destruct (main_unsupported linux_arm64 env_ok world_fresh eq_refl)
    as (H0 & He & _ & _ & Ht).
  split; [exact H0 | split; [exact He | exact Ht]].
Defined.

(** After a download that succeeds [main] goes on as [install], in a world
    that differs from the first one by the output printed and the calls
    made so far. *)
Lemma main_reaches_install (m : Macros) (env : Env) (w : World) :
  Platform.is_supported (Platform.detect m) = true ->
  fst (fs_exists (binary_path m) w) = false ->
  download_ok m env w ->
  exists w3,
    main m env w = install m env (release_bytes m env w) w3
    /\ fs w3 = fs w
    /\ stderr w3 = stderr w
    /\ trace w3 = trace w ++ [EvCurlGlobalInit; EvExists (binary_path m);
                              EvOpenRead (package_json m);
                              EvCurlPerform (request (release_url m env w))].
Proof.
  intros Hsup Hnex (Hinit & Hres & Hcode).
  unfold release_bytes, release_url in *.
  unfold main. rewrite !bind_run. cbn [cout emit fst snd].
  rewrite Hsup. cbn [negb]. rewrite !bind_run.
  rewrite (fs_exists_fs (binary_path m) w) by reflexivity.
  rewrite Hnex. rewrite !bind_run, fs_exists_run. cbn [snd].
  rewrite get_package_version_world.
  rewrite (get_package_version_fs m env w) by reflexivity.
  cbn [cout fst snd fs stdout stderr trace].
  set (url := build_url _ _) in *.
  rewrite (download_file_success env url _ Hinit Hres Hcode).
  match goal with
  | |- context [download_file env url ?w0] =>
      destruct (download_file_world env url w0) as (Hf & Ht & He);
      exists (snd (download_file env url w0))
  end.
  cbn [fs stderr trace] in Hf, Ht, He.
  rewrite Hinit in Ht. rewrite Hinit, Hres, Hcode, !Z.eqb_refl in He.
  cbn [negb] in He. rewrite append_empty_r in He.
  split; [reflexivity|]. split; [exact Hf|]. split; [exact He|].
  rewrite Ht, <- !app_assoc. reflexivity.
Qed.

(** The four ways through [main]: no release for the target, binary there,
    download failed, or [install] on the bytes of the download. *)
Lemma main_branches (m : Macros) (env : Env) (w : World) :
  let out := main m env w in
  let url := release_url m env w in
  (Platform.is_supported (Platform.detect m) = false
   /\ fst out = 0 /\ fs (snd out) = fs w
   /\ new_events w (snd out) = [EvCurlGlobalInit; EvCurlGlobalCleanup])
  \/ (Platform.is_supported (Platform.detect m) = true
      /\ fst (fs_exists (binary_path m) w) = true
      /\ fst out = 0 /\ fs (snd out) = fs w
      /\ new_events w (snd out)
         = [EvCurlGlobalInit; EvExists (binary_path m); EvCurlGlobalCleanup])
  \/ (Platform.is_supported (Platform.detect m) = true
      /\ fst (fs_exists (binary_path m) w) = false
      /\ fst (download_file env url w) = None
      /\ fst out = 0 /\ fs (snd out) = fs w
      /\ new_events w (snd out)
         = [EvCurlGlobalInit; EvExists (binary_path m);
            EvOpenRead (package_json m)]
           ++ (if curl_easy_init_ok env then [EvCurlPerform (request url)]
               else [])
           ++ [EvCurlGlobalCleanup])
  \/ (Platform.is_supported (Platform.detect m) = true
      /\ fst (fs_exists (binary_path m) w) = false
      /\ download_ok m env w
      /\ exists w3,
           out = install m env (release_bytes m env w) w3
           /\ fs w3 = fs w
           /\ stderr w3 = stderr w
           /\ trace w3
              = trace w ++ [EvCurlGlobalInit; EvExists (binary_path m);
                            EvOpenRead (package_json m);
                            EvCurlPerform (request url)]).
Proof.
  cbn zeta.
  destruct (Platform.is_supported (Platform.detect m)) eqn:Hsup.
  2:{ left. destruct (main_unsupported_run m env w Hsup) as (H0 & _ & Hf & Ht).
      auto. }
  right.
  destruct (fst (fs_exists (binary_path m) w)) eqn:Hex.
  { left. split; [reflexivity|]. split; [reflexivity|].
    unfold main. rewrite !bind_run. cbn [cout emit fst snd].
    rewrite Hsup. cbn [negb]. rewrite !bind_run.
    rewrite (fs_exists_fs (binary_path m) w) by reflexivity.
    rewrite Hex. rewrite !bind_run, fs_exists_run.
    cbn [cout emit ret fst snd fs trace].
    split; [reflexivity|]. split; [reflexivity|].
    apply new_events_app. now rewrite <- !app_assoc. }
  right.
  pose proof (download_file_result env (release_url m env w) w) as Hres.
  cbn zeta in Hres.
  destruct (curl_easy_init_ok env
            && (res (curl_easy_perform env (request (release_url m env w)))
                =? CURLE_OK)
            && (response_code
                  (curl_easy_perform env (request (release_url m env w)))
                =? 200)) eqn:Hok.
  - right. split; [reflexivity|]. split; [reflexivity|].
    apply andb_true_iff in Hok as [Hok Hc].
    apply andb_true_iff in Hok as [Hi Hr].
    apply Z.eqb_eq in Hc, Hr.
    assert (Hd : download_ok m env w) by (unfold download_ok; auto).
    split; [exact Hd|]. now apply main_reaches_install.
  - left. split; [reflexivity|]. split; [reflexivity|].
    split; [exact Hres|].
    unfold release_url in *.
    unfold main. rewrite !bind_run. cbn [cout emit fst snd].
    rewrite Hsup. cbn [negb]. rewrite !bind_run.
    rewrite (fs_exists_fs (binary_path m) w) by reflexivity.
    rewrite Hex. rewrite !bind_run, fs_exists_run. cbn [snd].
    rewrite get_package_version_world.
    rewrite (get_package_version_fs m env w) by reflexivity.
    cbn [cout fst snd fs stdout stderr trace].
    set (url := build_url _ _) in *.
    match goal with
    | |- context [download_file env url ?w0] =>
        destruct (download_file_world env url w0) as (Hf & Ht & _);
        rewrite (download_file_result env url w0)
    end.
    cbn zeta. rewrite Hok.
    rewrite !bind_run. cbn [cerr emit ret fst snd fs trace].
    cbn [fs trace] in Hf, Ht.
    split; [reflexivity|]. split; [exact Hf|].
    apply new_events_app. rewrite Ht, <- !app_assoc. reflexivity.
Qed.

(** *** The calls of install *)

Lemma make_executable_chmod (m : Macros) (env : Env) (p : string) (w : World) :
  extends is_chmod w (snd (make_executable m env p w)).
Proof.
  unfold make_executable. destruct (negb (_WIN32 m)).
  - rewrite bind_run. cbn [ret snd].
    eapply extends_one; [apply chmod_trace | reflexivity].
  - now apply extends_refl.
Qed.

Lemma install_trace (m : Macros) (env : Env) (bytes : list Byte.byte)
  (w : World) :
  exists mid,
    trace (snd (install m env bytes w))
    = trace w ++ EvCreateDirectories (bin_dir m) :: mid ++ [EvCurlGlobalCleanup]
    /\ Forall (fun e => is_install_call e = true) mid.
Proof.
  assert (Hclose : forall w1 w2 w3 : World,
            trace w1 = trace w ++ [EvCreateDirectories (bin_dir m)] ->
            extends is_install_call w1 w2 ->
            trace w3 = trace w2 ++ [EvCurlGlobalCleanup] ->
            exists mid,
              trace w3 = trace w ++ EvCreateDirectories (bin_dir m)
                           :: mid ++ [EvCurlGlobalCleanup]
              /\ Forall (fun e => is_install_call e = true) mid).
  { intros w1 w2 w3 H1 (mid & H2 & HF) H3. exists mid. split; [|exact HF].
    rewrite H3, H2, H1, <- !app_assoc. reflexivity. }
  unfold install. cbn zeta. rewrite bind_run, create_directories_run.
  cbn [fst snd].
  match goal with
  | |- context [{| fs := ?f; stdout := _; stderr := _; trace := ?t |}] =>
      set (w1 := {| fs := f; stdout := stdout w; stderr := stderr w;
                    trace := t |})
  end.
  destruct (negb _).
  { rewrite !bind_run. cbn [cerr emit ret snd].
    eapply (Hclose w1 w1); [reflexivity | now apply extends_refl | reflexivity]. }
  rewrite bind_run.
  set (w2 := snd (extract_archive env bytes (bin_dir m) w1)).
  assert (H2 : extends is_install_call w1 w2).
  { eapply extends_mono; [|apply extract_archive_extends].
    intros e He. unfold is_install_call. now rewrite He. }
  destruct (negb _).
  { rewrite !bind_run. cbn [cerr emit ret snd].
    eapply (Hclose w1 w2); [reflexivity | exact H2 | reflexivity]. }
  rewrite bind_run.
  match goal with
  | |- context [snd ((if ?c then ?a else ?b) w2)] =>
      set (w3 := snd ((if c then a else b) w2))
  end.
  assert (H3 : extends is_install_call w1 w3).
  { eapply extends_trans; [exact H2|]. subst w3.
    destruct (negb (String.eqb _ _)); [|now apply extends_refl].
    rewrite bind_run.
    eapply extends_trans.
    - eapply extends_mono; [|apply make_executable_chmod].
      intros e He. unfold is_install_call. rewrite He. apply orb_true_r.
    - destruct (negb _); now apply extends_refl. }
  rewrite !bind_run. cbn [cout emit ret snd].
  eapply (Hclose w1 w3); [reflexivity | exact H3 | reflexivity].
Qed.

Lemma install_exit (m : Macros) (env : Env) (bytes : list Byte.byte)
  (w : World) :
  fst (install m env bytes w) = 0 \/ fst (install m env bytes w) = 1.
Proof.
  unfold install. cbn zeta. rewrite bind_run.
  destruct (negb _); [rewrite !bind_run; now right|].
  rewrite bind_run.
  destruct (negb _); [rewrite !bind_run; now right|].
  rewrite !bind_run. now left.
Qed.

(** Every [return] of [main] is bracketed by the two global calls. *)
Lemma main_returns_bracket (m : Macros) (env : Env) (w : World) :
  exists mid,
    new_events w (snd (main m env w))
    = EvCurlGlobalInit :: mid ++ [EvCurlGlobalCleanup]
    /\ Forall (fun e => is_global e = false) mid.
Proof.
  destruct (main_branches m env w)
    as [(_ & _ & _ & Ht)|[(_ & _ & _ & _ & Ht)|[(_ & _ & _ & _ & _ & Ht)
       |(_ & _ & (Hinit & _) & w3 & Hout & _ & _ & Ht)]]].
  - exists []. rewrite Ht. auto.
  - exists [EvExists (binary_path m)]. rewrite Ht. split; [reflexivity|].
    repeat constructor.
  - rewrite Ht.
    exists ([EvExists (binary_path m); EvOpenRead (package_json m)]
            ++ (if curl_easy_init_ok env
                then [EvCurlPerform (request (release_url m env w))] else [])).
    split; [now rewrite <- !app_assoc|].
    destruct (curl_easy_init_ok env); repeat constructor.
  - rewrite Hout.
    destruct (install_trace m env (release_bytes m env w) w3) as (mid & Hm & HF).
    exists ([EvExists (binary_path m); EvOpenRead (package_json m);
             EvCurlPerform (request (release_url m env w));
             EvCreateDirectories (bin_dir m)] ++ mid).
    split.
    + apply new_events_app. rewrite Hm, Ht, <- !app_assoc. reflexivity.
    + repeat constructor. eapply Forall_impl; [exact HF|].
      intros []; cbn; try reflexivity; discriminate.
Qed.

(** X7. A run of [main] ends in one of two ways. When [fs::exists] throws at
    line 313 the process ends there: [curl_global_init] and the status call
    are the only calls made, and nothing is cleaned up. Otherwise [main]
    returns, and on every way to a [return] the first call made is
    [curl_global_init] and the last one [curl_global_cleanup], and neither
    is made in between. *)
Theorem main_global_bracket (m : Macros) (env : Env) (w : World) :
  let out := run_main m env w in
  match fst out with
  | Returns _ =>
      exists mid,
        new_events w (snd out)
        = EvCurlGlobalInit :: mid ++ [EvCurlGlobalCleanup]
        /\ Forall (fun e => is_global e = false) mid
  | Terminates =>
      new_events w (snd out) = [EvCurlGlobalInit; EvExists (binary_path m)]
  end.
Proof.
  cbn zeta. unfold run_main. destruct (_ && _).
  - rewrite !bind_run. cbn [cout emit ret fst snd trace].
    apply new_events_app. now rewrite <- app_assoc.
  - rewrite bind_run. cbn [ret fst snd]. apply main_returns_bracket.
Qed.

(** A run that ends at line 313: no cleanup is made. *)
Lemma main_global_bracket_sample :
  fst (run_main linux_x64 env_locked world_fresh) = Terminates
  /\ new_events world_fresh (snd (run_main linux_x64 env_locked world_fresh))
     = [EvCurlGlobalInit; EvExists "/pkg/bin/claudev"].
Proof.
  split; [reflexivity|].
  exact (main_global_bracket linux_x64 env_locked world_fresh).
Defined.

Lemma curl_requests_app (a b : list event) :
  curl_requests (a ++ b) = curl_requests a ++ curl_requests b.
Proof. apply omap_app. Qed.

Lemma curl_requests_install (evs : list event) :
  Forall (fun e => is_install_call e = true) evs -> curl_requests evs = [].
Proof.
  induction 1 as [|e evs He _ IH]; [reflexivity|].
  destruct e; try discriminate; exact IH.
Qed.

(** X8. A run of [main] makes at most one transfer, and a transfer it makes
    has peer verification on, follows redirects, five at most, has a time
    limit of 60 seconds and names the installer as user agent. *)
Theorem main_transfer_options (m : Macros) (env : Env) (w : World) :
  let rs := curl_requests (new_events w (snd (main m env w))) in
  (List.length rs <= 1)%nat
  /\ Forall (fun r => CURLOPT_SSL_VERIFYPEER r = 1
                      /\ CURLOPT_FOLLOWLOCATION r = 1
                      /\ CURLOPT_MAXREDIRS r = 5
                      /\ CURLOPT_TIMEOUT r = 60
                      /\ CURLOPT_USERAGENT r = "claudev-installer/cpp") rs.
Proof.
  cbn zeta.
  assert (Hone : curl_requests (new_events w (snd (main m env w))) = []
                 \/ curl_requests (new_events w (snd (main m env w)))
                    = [request (release_url m env w)]).
  { destruct (main_branches m env w)
      as [(_ & _ & _ & Ht)|[(_ & _ & _ & _ & Ht)|[(_ & _ & _ & _ & _ & Ht)
         |(_ & _ & _ & w3 & Hout & _ & _ & Ht)]]].
    - rewrite Ht. now left.
    - rewrite Ht. now left.
    - rewrite Ht. destruct (curl_easy_init_ok env); [now right | now left].
    - right. rewrite Hout.
      destruct (install_trace m env (release_bytes m env w) w3)
        as (mid & Hm & HF).
      rewrite (new_events_app w _
                 ([EvCurlGlobalInit; EvExists (binary_path m);
                   EvOpenRead (package_json m);
                   EvCurlPerform (request (release_url m env w));
                   EvCreateDirectories (bin_dir m)]
                  ++ mid ++ [EvCurlGlobalCleanup])).
      2:{ rewrite Hm, Ht, <- !app_assoc. reflexivity. }
      rewrite !curl_requests_app, (curl_requests_install mid HF).
      reflexivity. }
  destruct Hone as [-> | ->]; cbn [List.length]; split; try lia;
    repeat constructor.
Qed.

(** What [main] returns. *)
Lemma main_returns_code (m : Macros) (env : Env) (w : World) :
  fst (main m env w) = 0
  \/ (fst (main m env w) = 1
      /\ Platform.is_supported (Platform.detect m) = true
      /\ fst (fs_exists (binary_path m) w) = false
      /\ download_ok m env w).
Proof.
  destruct (main_branches m env w)
    as [(_ & H0 & _)|[(_ & _ & H0 & _)|[(_ & _ & _ & H0 & _)
       |(Hs & Hn & Hd & w3 & Hout & _)]]]; auto.
  rewrite Hout.
  destruct (install_exit m env (release_bytes m env w) w3); auto.
Qed.

(** X9. A run of [main] ends in one of three ways: it returns 0; it returns
    1, and that only after a download that succeeded on a supported
    platform without a binary; or, on a supported platform, the exception
    thrown by [fs::exists] at line 313 ends the process. Neither the
    platform nor the network makes [main] return a failure. *)
Theorem main_exit_code (m : Macros) (env : Env) (w : World) :
  match fst (run_main m env w) with
  | Returns code =>
      code = 0
      \/ (code = 1
          /\ Platform.is_supported (Platform.detect m) = true
          /\ fst (fs_exists (binary_path m) w) = false
          /\ download_ok m env w)
  | Terminates =>
      Platform.is_supported (Platform.detect m) = true
      /\ fault env (EvExists (binary_path m)) = true
  end.
Proof.
  unfold run_main.
  destruct (Platform.is_supported (Platform.detect m)
            && fault env (EvExists (binary_path m))) eqn:E.
  - apply andb_true_iff in E. rewrite !bind_run. exact E.
  - rewrite bind_run. apply main_returns_code.
Qed.

(** ** What install leaves on disk *)

Lemma mkdirs_lookup (env : Env) (locs : list (list string))
  (f : gmap (list string) node) (l : list string) :
  lookup_node (snd (mkdirs env locs f)) l = lookup_node f l
  \/ (lookup_node f l = None
      /\ lookup_node (snd (mkdirs env locs f)) l = Some Dir).
Proof.
  revert f. induction locs as [|a locs IH]; intros f; cbn [mkdirs];
    [now left|].
  destruct (lookup_node f a) as [[|? ?]|] eqn:Ha; [apply IH | now left |].
  destruct (mkdir_denied env a); [now left|].
  assert (Hna : is_anchor a = false).
  { unfold lookup_node in Ha. now destruct (is_anchor a). }
  destruct (decide (l = a)) as [->|Hne].
  - right. split; [exact Ha|].
    destruct (IH (<[a := Dir]> f)) as [E|[E _]];
      rewrite lookup_node_insert_eq in E by assumption; congruence.
  - destruct (IH (<[a := Dir]> f)) as [E|[E1 E2]];
      rewrite lookup_node_insert_ne in * by assumption; auto.
Qed.

Lemma same_files_refl (f : gmap (list string) node) : same_files f f.
Proof. intros l _. reflexivity. Qed.

Lemma same_files_trans (f1 f2 f3 : gmap (list string) node) :
  same_files f1 f2 -> same_files f2 f3 -> same_files f1 f3.
Proof.
  intros H12 H23 l Hf. rewrite (H23 l Hf) in Hf |- *. now apply H12.
Qed.

Lemma same_files_confined (d : list string) (f f' : gmap (list string) node) :
  same_files f f' -> confined d f f'.
Proof. intros H l Hf. left. now apply H. Qed.

(** [create_directories] makes directories only. *)
Lemma create_directories_same_files (env : Env) (p : string) (w : World) :
  same_files (fs w) (fs (snd (create_directories env p w))).
Proof.
  rewrite create_directories_run. cbn [snd fs]. intros l Hf.
  destruct (mkdirs_lookup env (ancestors (resolve p) ++ [resolve p]) (fs w) l)
    as [E|[_ E]]; [exact E|].
  rewrite E in Hf. discriminate.
Qed.

(** [chmod] changes the mode of a regular file at the path, or nothing. *)
Lemma chmod_fs (env : Env) (p : string) (mode : Z) (w : World) :
  let out := chmod env p mode w in
  (fs (snd out) = fs w
   /\ (fst out = 0 -> fault env (EvChmod p mode) = false
                      /\ lookup_node (fs w) (resolve p) = Some Dir))
  \/ (fst out = 0
      /\ exists mode0 content,
           lookup_node (fs w) (resolve p) = Some (File mode0 content)
           /\ fs (snd out) = <[resolve p := File mode content]> (fs w)).
Proof.
  cbn zeta. unfold chmod. rewrite !bind_run. cbn [emit get_fs fst snd fs].
  destruct (fault env _); [left; split; [reflexivity | discriminate]|].
  destruct (lookup_node (fs w) (resolve p)) as [[|mode0 content]|] eqn:E.
  - left. auto.
  - right. rewrite !bind_run. cbn [put_fs ret fst snd fs]. eauto.
  - left. split; [reflexivity | discriminate].
Qed.


(** The permission step touches the binary only: it leaves the file system
    as it was, or gives the regular file at the binary path mode 0755. *)
Lemma set_permissions_fs (m : Macros) (env : Env) (w : World) :
  fs (snd (set_permissions m env w)) = fs w
  \/ exists mode0 content,
       lookup_node (fs w) (resolve (binary_path m)) = Some (File mode0 content)
       /\ fs (snd (set_permissions m env w))
          = <[resolve (binary_path m) := File exec_mode content]> (fs w).
Proof.
  unfold set_permissions.
  destruct (negb (String.eqb _ _)); [|now left].
  rewrite bind_run. unfold make_executable.
  destruct (negb (_WIN32 m)).
  - rewrite bind_run. cbn [ret fst snd].
    destruct (chmod_fs env (binary_path m) exec_mode w)
      as [(Hf & _)|(_ & mode0 & content & Hl & Hf)].
    + left. destruct (negb _); [rewrite cerr_fs|]; exact Hf.
    + right. exists mode0, content. split; [exact Hl|].
      destruct (negb _); [rewrite cerr_fs|]; exact Hf.
  - left. reflexivity.
Qed.

(** The three ways through [install]. *)
Lemma install_branches (m : Macros) (env : Env) (bytes : list Byte.byte)
  (w : World) :
  let out := install m env bytes w in
  let ec := fst (create_directories env (bin_dir m) w) in
  let w1 := snd (create_directories env (bin_dir m) w) in
  let ok := fst (extract_archive env bytes (bin_dir m) w1) in
  let w2 := snd (extract_archive env bytes (bin_dir m) w1) in
  let w3 := snd (set_permissions m env w2) in
  (ec <> 0 /\ fst out = 1 /\ fs (snd out) = fs w1
   /\ trace (snd out) = trace w1 ++ [EvCurlGlobalCleanup])
  \/ (ec = 0 /\ ok = false /\ fst out = 1 /\ fs (snd out) = fs w2
      /\ stderr (snd out) = stderr w2 +:+ "claudev: Extraction failed" +:+ nl
      /\ trace (snd out) = trace w2 ++ [EvCurlGlobalCleanup])
  \/ (ec = 0 /\ ok = true /\ fst out = 0 /\ fs (snd out) = fs w3
      /\ stdout (snd out)
         = stdout w3 +:+ "claudev: Installed successfully!" +:+ nl
      /\ stderr (snd out) = stderr w3
      /\ trace (snd out) = trace w3 ++ [EvCurlGlobalCleanup]).
Proof.
  cbn zeta. unfold install. cbn zeta. rewrite bind_run.
  destruct (Z.eqb_spec (fst (create_directories env (bin_dir m) w)) 0)
    as [Hec|Hec]; cbn [negb].
  2:{ left. rewrite !bind_run. cbn [cerr emit ret fst snd fs trace]. auto. }
  right. rewrite bind_run.
  destruct (fst (extract_archive env bytes (bin_dir m)
                   (snd (create_directories env (bin_dir m) w)))) eqn:Hok;
    cbn [negb].
  - right. rewrite bind_run. fold (set_permissions m env).
    rewrite !bind_run. cbn [cout emit ret fst snd fs stdout stderr trace].
    repeat split; auto.
  - left. rewrite !bind_run. cbn [cerr emit ret fst snd fs stderr trace].
    repeat split; auto.
Qed.

(** An entry whose data ends with a read error makes the loop fail, at that
    entry or before it. *)
Lemma extract_entries_damaged (env : Env) (re dest : string)
  (es : list archive_entry) (w : World) :
  Exists (fun e => read_end e <> READ_EOF) es ->
  fst (extract_entries env re dest es w) = false.
Proof.
  intros Hex. revert w. induction Hex as [e es He|e es _ IH]; intros w;
    rewrite extract_entries_cons.
  - assert (E : fst (extract_entries env re dest [e] w) = false).
    { apply entry_fails_false. right. right. now left. }
    rewrite E. exact E.
  - destruct (fst (extract_entries env re dest [e] w)) eqn:E; [apply IH | exact E].
Qed.

Lemma extract_archive_unreadable (env : Env) (bytes : list Byte.byte)
  (dest : string) (w : World) :
  unreadable env bytes ->
  fst (extract_archive env bytes dest w) = false.
Proof.
  intros Hbad. unfold extract_archive.
  destruct (archive_new_ok env) eqn:Hnew; cbn [negb];
    [|rewrite bind_run; reflexivity].
  rewrite bind_run.
  destruct (Z.eqb_spec (open_result (archive_read env bytes)) ARCHIVE_OK)
    as [Hopen|Hopen]; cbn [negb]; [|rewrite bind_run; reflexivity].
  destruct Hbad as [Hb|[Hb|Hb]]; [congruence | contradiction|].
  now apply extract_entries_damaged.
Qed.


(** X10. On a supported platform with no binary yet, after a download that
    succeeded and with the bin directory made, bytes that cannot be
    extracted (no archive handle, no archive format recognised, or an entry
    whose data ends with a read error) make [main] return 1, after
    [curl_global_cleanup] as its last call, and [chmod] is never called.
    (Of the error stream nothing is said: see [archive].) *)
Theorem main_extraction_failure (m : Macros) (env : Env) (w : World) :
  Platform.is_supported (Platform.detect m) = true ->
  fst (fs_exists (binary_path m) w) = false ->
  download_ok m env w ->
  fst (create_directories env (bin_dir m) w) = 0 ->
  unreadable env (release_bytes m env w) ->
  let out := main m env w in
  fst out = 1
  /\ (exists evs, new_events w (snd out) = evs ++ [EvCurlGlobalCleanup]
                  /\ Forall (fun e => is_chmod e = false) evs).
Proof.
  intros Hsup Hnex Hdl Hec Hbad. cbn zeta.
  destruct (main_reaches_install m env w Hsup Hnex Hdl)
    as (w3 & -> & Hf & _ & Ht).
  rewrite <- (create_directories_fs env (bin_dir m) w w3 Hf) in Hec.
  destruct (install_branches m env (release_bytes m env w) w3)
    as [(Hne & _)|[(_ & _ & H1 & _ & He & Htr)|(_ & Hok & _)]].
  - contradiction.
  - split; [exact H1|].
    destruct (extract_archive_extends env (release_bytes m env w) (bin_dir m)
                (snd (create_directories env (bin_dir m) w3)))
      as (evs & Hevs & HF).
    assert (Ht1 : trace (snd (create_directories env (bin_dir m) w3))
                  = trace w3 ++ [EvCreateDirectories (bin_dir m)])
      by (rewrite create_directories_run; reflexivity).
    rewrite Ht1 in Hevs.
    exists ([EvCurlGlobalInit; EvExists (binary_path m);
             EvOpenRead (package_json m);
             EvCurlPerform (request (release_url m env w));
             EvCreateDirectories (bin_dir m)] ++ evs).
    split.
    + apply new_events_app. rewrite Htr, Hevs, Ht, <- !app_assoc. reflexivity.
    + cbn [app]. repeat constructor.
      eapply Forall_impl; [exact HF|]. intros []; cbn; congruence.
  - rewrite extract_archive_unreadable in Hok by assumption. discriminate.
Qed.

Lemma main_extraction_failure_sample :
  fst (main linux_x64 env_unopened world_fresh) = 1
  /\ exists evs,
       new_events world_fresh (snd (main linux_x64 env_unopened world_fresh))
       = evs ++ [EvCurlGlobalCleanup]
       /\ Forall (fun e => is_chmod e = false) evs.
Proof.
  assert (Hnex : fst (fs_exists (binary_path linux_x64) world_fresh) = false)
    by (vm_compute; reflexivity).
  assert (Hdl : download_ok linux_x64 env_unopened world_fresh)
    by (repeat split).
  assert (Hec : fst (create_directories env_unopened (bin_dir linux_x64)
                       world_fresh) = 0)
    by (vm_compute; reflexivity).
  assert (Hbad : unreadable env_unopened
                   (release_bytes linux_x64 env_unopened world_fresh)).
  { right. left. discriminate. }
  exact (main_extraction_failure linux_x64 env_unopened world_fresh
           eq_refl Hnex Hdl Hec Hbad).
Defined.

(** X11. [main] does not look at what the archive held. With an archive
    that opens and has no entry, the loop ends at once with success: [main]
    prints [claudev: Installed successfully!] and returns 0, although no
    regular file was created or changed and there is still no binary. *)
Theorem main_empty_archive (m : Macros) (env : Env) (w : World) :
  Platform.is_supported (Platform.detect m) = true ->
  fst (fs_exists (binary_path m) w) = false ->
  download_ok m env w ->
  fst (create_directories env (bin_dir m) w) = 0 ->
  archive_new_ok env = true ->
  open_result (archive_read env (release_bytes m env w)) = ARCHIVE_OK ->
  entries (archive_read env (release_bytes m env w)) = [] ->
  let out := main m env w in
  fst out = 0
  /\ (exists s, stdout (snd out)
                = s +:+ "claudev: Installed successfully!" +:+ nl)
  /\ same_files (fs w) (fs (snd out))
  /\ is_file (lookup_node (fs (snd out)) (resolve (binary_path m))) = false.
Proof.
  intros Hsup Hnex Hdl Hec Hnew Hopen Hent. cbn zeta.
  destruct (main_reaches_install m env w Hsup Hnex Hdl)
    as (w3 & -> & Hf & _ & _).
  rewrite <- (create_directories_fs env (bin_dir m) w w3 Hf) in Hec.
  set (bytes := release_bytes m env w) in *.
  set (w1 := snd (create_directories env (bin_dir m) w3)).
  assert (Hx : extract_archive env bytes (bin_dir m) w1
               = (true, snd (emit (EvReadOpenMemory (List.length bytes)) w1))).
  { unfold extract_archive. rewrite Hnew. cbn [negb]. rewrite bind_run.
    rewrite Hopen, Z.eqb_refl, Hent. reflexivity. }
  assert (Hsame : same_files (fs w) (fs w1)).
  { rewrite <- Hf. apply create_directories_same_files. }
  assert (Hnofile : is_file (lookup_node (fs w1) (resolve (binary_path m)))
                    = false).
  { destruct (is_file _) eqn:E; [|reflexivity].
    rewrite (Hsame _ E) in E.
    rewrite fs_exists_run in Hnex. cbn [fst] in Hnex.
    apply bool_decide_eq_false in Hnex.
    destruct (lookup_node (fs w) (resolve (binary_path m))); [|discriminate].
    exfalso. apply Hnex. eauto. }
  destruct (install_branches m env bytes w3)
    as [(Hne & _)|[(_ & Hok & _)|(_ & _ & H0 & Hfs & Hout & _)]].
  - contradiction.
  - fold w1 in Hok. rewrite Hx in Hok. discriminate.
  - fold w1 in Hfs, Hout. rewrite Hx in Hfs, Hout. cbn [snd] in Hfs, Hout.
    assert (Hkeep : fs (snd (install m env bytes w3)) = fs w1).
    { rewrite Hfs.
      destruct (set_permissions_fs m env
                  (snd (emit (EvReadOpenMemory (List.length bytes)) w1)))
        as [E|(mode0 & content & Hl & _)]; [exact E|].
      cbn [emit snd fs] in Hl. rewrite Hl in Hnofile. discriminate. }
    split; [exact H0|]. split; [eauto|]. rewrite Hkeep. auto.
Qed.

Lemma main_empty_archive_sample :
  fst (main linux_x64 env_empty world_fresh) = 0
  /\ is_file (lookup_node (fs (snd (main linux_x64 env_empty world_fresh)))
                          (resolve (binary_path linux_x64))) = false.
Proof.
  assert (Hnex : fst (fs_exists (binary_path linux_x64) world_fresh) = false)
    by (vm_compute; reflexivity).
  assert (Hdl : download_ok linux_x64 env_empty world_fresh)
    by (repeat split).
  assert (Hec : fst (create_directories env_empty (bin_dir linux_x64)
                       world_fresh) = 0)
    by (vm_compute; reflexivity).
  destruct (main_empty_archive linux_x64 env_empty world_fresh
              eq_refl Hnex Hdl Hec eq_refl eq_refl eq_refl)
    as (H0 & _ & _ & Hb).
  split; [exact H0 | exact Hb].
Defined.





(** The binary path lies inside the bin directory. *)
Lemma binary_path_inside (m : Macros) :
  inside (resolve (bin_dir m)) (resolve (binary_path m)) = true.
Proof.
  unfold binary_path. apply safe_path_inside.
  unfold Platform.get_binary_name.
  destruct (String.eqb _ _); reflexivity.
Qed.

Lemma extract_archive_confined_entries (env : Env) (bytes : list Byte.byte)
  (dest : string) (w : World) :
  Forall (fun e => safe_path (pathname e) = true)
         (entries (archive_read env bytes)) ->
  confined (resolve dest) (fs w)
           (fs (snd (extract_archive env bytes dest w))).
Proof.
  intros HF. unfold extract_archive. destruct (negb (archive_new_ok env)).
  { rewrite bind_run. apply confined_refl. }
  rewrite bind_run. cbn [emit fst snd].
  destruct (negb _); [rewrite bind_run; apply confined_refl|].
  eapply confined_trans; [|now apply extract_entries_confined].
  apply confined_refl.
Qed.

Lemma set_permissions_confined (m : Macros) (env : Env) (w : World) :
  confined (resolve (bin_dir m)) (fs w) (fs (snd (set_permissions m env w))).
Proof.
  destruct (set_permissions_fs m env w) as [->|(mode0 & content & Hl & ->)];
    [apply confined_refl|].
  eapply touches_confined; [apply binary_path_inside|].
  apply touches_insert_file. apply (lookup_node_file_not_anchor (fs w)).
  now rewrite Hl.
Qed.

(** X13. When the stored paths of the downloaded archive are all relative
    and without [..] element, every regular file that a run of [main]
    creates or changes lies inside the bin directory: the directories it
    makes aside, the run writes nowhere else. *)
Theorem main_confined (m : Macros) (env : Env) (w : World) :
  Forall (fun e => safe_path (pathname e) = true)
         (entries (archive_read env (release_bytes m env w))) ->
  confined (resolve (bin_dir m)) (fs w) (fs (snd (main m env w))).
Proof.
  intros Hsafe.
  destruct (main_branches m env w)
    as [(_ & _ & -> & _)|[(_ & _ & _ & -> & _)|[(_ & _ & _ & _ & -> & _)
       |(_ & _ & _ & w3 & -> & Hf & _)]]]; try apply confined_refl.
  set (bytes := release_bytes m env w) in *.
  set (w1 := snd (create_directories env (bin_dir m) w3)).
  assert (H1 : confined (resolve (bin_dir m)) (fs w) (fs w1)).
  { rewrite <- Hf. apply same_files_confined, create_directories_same_files. }
  assert (H2 : confined (resolve (bin_dir m)) (fs w)
                 (fs (snd (extract_archive env bytes (bin_dir m) w1)))).
  { eapply confined_trans; [exact H1|].
    now apply extract_archive_confined_entries. }
  destruct (install_branches m env bytes w3)
    as [(_ & _ & -> & _)|[(_ & _ & _ & -> & _)|(_ & _ & _ & -> & _)]].
  - exact H1.
  - exact H2.
  - eapply confined_trans; [exact H2 | apply set_permissions_confined].
Qed.

Lemma main_confined_sample :
  confined (resolve (bin_dir linux_x64)) (fs world_fresh)
           (fs (snd (main linux_x64 env_ok world_fresh))).
Proof.
  apply (main_confined linux_x64 env_ok world_fresh).
  repeat constructor.
Defined.

(** ** What a successful extraction leaves on disk *)





(** ** Detection, read off the compiler symbols *)

(** X15. In terms of the symbols the compiler defines: [_WIN32] is looked
    at before [__APPLE__] and [__linux__], and the x86-64 symbols before the
    ARM ones. A build is supported when it is for x86-64 on one of the
    three systems, or for ARM64 on macOS; the binary is [claudev.exe] on a
    Windows build and [claudev] elsewhere, and the archive is a zip on
    Windows, a tar.gz on macOS and Linux. *)
Theorem detect_by_symbols (m : Macros) :
  let p := Platform.detect m in
  let x64 := __x86_64__ m || _M_X64 m in
  let arm64 := __aarch64__ m || _M_ARM64 m in
  Platform.is_supported p
  = (x64 && (_WIN32 m || __APPLE__ m || __linux__ m))
    || (negb x64 && arm64 && negb (_WIN32 m) && __APPLE__ m)
  /\ Platform.get_binary_name p
     = (if _WIN32 m then "claudev.exe" else "claudev")
  /\ Platform.archive_ext p
     = (if _WIN32 m then "zip"
        else if __APPLE__ m || __linux__ m then "tar.gz" else EmptyString).
Proof.
  destruct m as [w a l x mx a64 ma f].
  destruct w, a, l, x, mx, a64, ma; vm_compute; repeat split; reflexivity.
Qed.

(** ** The handle that cannot be made *)

(** X16. When [curl_easy_init] gives no handle, the exception thrown by
    [CurlHandle] does not leave [download_file]: it returns [std::nullopt],
    makes no call, and reports the exception on the error stream; output
    stream and file system are as they were. *)
Theorem download_file_no_handle (env : Env) (url : string) (w : World) :
  curl_easy_init_ok env = false ->
  let out := download_file env url w in
  fst out = None
  /\ new_events w (snd out) = []
  /\ stderr (snd out)
     = stderr w +:+ nl +:+ "Download exception: Failed to initialize CURL" +:+ nl
  /\ stdout (snd out) = stdout w
  /\ fs (snd out) = fs w.
Proof.
  intros Hinit. cbn zeta. unfold download_file. rewrite Hinit. cbn [negb].
  rewrite bind_run. cbn [cerr ret fst snd fs stdout stderr trace].
  split; [reflexivity|]. split; [|auto].
  apply new_events_app. cbn [trace]. now rewrite app_nil_r.
Qed.

Lemma download_file_no_handle_sample :
  fst (download_file env_no_curl "https://example.org/a.tar.gz" world_fresh)
  = None
  /\ new_events world_fresh
       (snd (download_file env_no_curl "https://example.org/a.tar.gz" world_fresh))
     = [].
Proof.
  destruct (download_file_no_handle env_no_curl "https://example.org/a.tar.gz"
              world_fresh eq_refl) as (H1 & H2 & _).
  split; [exact H1 | exact H2].
Defined.
